(** * Swift syntax analyzer: a shallow embedding of
      [ios-master-skills/tools/swift_syntax_analyzer.py]

    The analyzer scans one Swift source text with seven regex-driven rules and
    returns a list of violations with a summary.  The development has four
    layers:

    - the Python string operations the source calls ([count], [find],
      [rfind], [index], slicing, [int]);
    - a backtracking matcher for the fragment of [re] the source's patterns
      are written in, with [re.finditer] and [re.search] on top of it;
    - the [SwiftAnalyzer] class, method by method, in a state-and-exception
      monad over the instance;
    - the properties of the analysis. *)

From Stdlib Require Import List Arith NArith ZArith Bool Lia String Ascii.
From Stdlib Require Import DecimalString Sorted.
Import ListNotations.

(** ** Python strings *)

(** A Python [str] is a sequence of Unicode code points. *)
Definition char := N.
Definition pystr := list char.

(** Source literals are ASCII; [py "..."] is the [str] with those characters. *)
Definition py (s : string) : pystr := map N_of_ascii (list_ascii_of_string s).

Definition chr (a : ascii) : char := N_of_ascii a.

(** What the analyzer takes from the interpreter it runs on: the Unicode
    database behind [\d], [\s] and [\w] for code points beyond ASCII, and the
    limit on the length of a decimal string [int] converts
    ([sys.get_int_max_str_digits()], 4300 unless reconfigured, 0 for no
    limit). *)
Record PyEnv := {
  unicode_decimal : char -> option N;
  unicode_space : char -> bool;
  unicode_alnum : char -> bool;
  int_max_str_digits : nat
}.

(** An interpreter with CPython's default conversion limit; its tables know
    no decimal digit, space or letter beyond ASCII. *)
Definition cpython_default : PyEnv := {|
  unicode_decimal := fun _ => None;
  unicode_space := fun _ => false;
  unicode_alnum := fun _ => false;
  int_max_str_digits := 4300
|}.

Inductive exn := ValueError | IndexError | TypeError.

Fixpoint starts_with (sub s : pystr) : bool :=
  match sub, s with
  | [], _ => true
  | a :: sub', b :: s' => (a =? b)%N && starts_with sub' s'
  | _ :: _, [] => false
  end.

Fixpoint str_eqb (a b : pystr) : bool :=
  match a, b with
  | [], [] => true
  | x :: a', y :: b' => (x =? y)%N && str_eqb a' b'
  | _, _ => false
  end.

(** [s[a:b]] for non-negative [a] and [b]. *)
Definition slice (s : pystr) (a b : nat) : pystr := firstn (b - a) (skipn a s).

(** [s.count(c)] for a one-character [c]. *)
Definition count (s : pystr) (c : char) : nat :=
  List.length (filter (fun x => (x =? c)%N) s).

Fixpoint find_from (sub s : pystr) (i : nat) : Z :=
  if starts_with sub s then Z.of_nat i
  else match s with
       | [] => (-1)%Z
       | _ :: s' => find_from sub s' (S i)
       end.

(** [s.find(sub, start)]. *)
Definition find (s sub : pystr) (start : nat) : Z :=
  if start <=? List.length s then find_from sub (skipn start s) start else (-1)%Z.

Fixpoint rfind_from (sub s : pystr) (i : nat) (last : Z) : Z :=
  let last' := if starts_with sub s then Z.of_nat i else last in
  match s with
  | [] => last'
  | _ :: s' => rfind_from sub s' (S i) last'
  end.

(** [s.rfind(sub, lo, hi)]: the highest index of an occurrence of [sub]
    inside [s[lo:hi]]. *)
Definition rfind (s sub : pystr) (lo hi : nat) : Z :=
  if lo <=? List.length s then rfind_from sub (slice s lo hi) lo (-1)%Z else (-1)%Z.

(** [sub in s]. *)
Definition contains (sub s : pystr) : bool := negb (find s sub 0 =? -1)%Z.

(** [s.index(sub)], which raises ValueError where [find] returns -1. *)
Definition index (s sub : pystr) : exn + nat :=
  let i := find s sub 0 in
  if (i =? -1)%Z then inl ValueError else inr (Z.to_nat i).

(** [str(n)] for a non-negative [int]. *)
Definition str_of_int (n : N) : pystr := py (NilZero.string_of_uint (N.to_uint n)).

(** An f-string field [{x}] where [x] is a [str] or [None]. *)
Definition fmt (x : option pystr) : pystr :=
  match x with
  | Some s => s
  | None => py "None"
  end.

(** ** The [re] fragment of the patterns *)

Inductive cclass :=
| CChar (c : char)            (* a literal character inside [...] *)
| CDigit                      (* \d *)
| CSpace                      (* \s *)
| CWord                       (* \w *)
| CDot                        (* .  (no DOTALL flag: anything but a newline) *)
| CNot (c : cclass)           (* \S, \D, \W *)
| CUnion (a b : cclass).      (* [ab] *)

Inductive regex :=
| Lit (s : pystr)                                (* literal text *)
| Set_ (c : cclass)                              (* one character of a class *)
| Rep (c : cclass) (lo : nat) (greedy : bool)    (* c*, c+, c*?, c+? *)
| Seq (r1 r2 : regex)
| Alt (r1 r2 : regex)                            (* r1|r2 *)
| Group (r : regex)                              (* capturing group 1 *)
| NotBehind (s : pystr)                          (* (?<!s) *)
| NotAhead (r : regex).                          (* (?!r) *)

(** A position of the matcher: an offset into the text, the text from there
    on, and the span of group 1 when it has matched. *)
Record mstate := {
  m_pos : nat;
  m_rest : pystr;
  m_g1 : option (nat * nat)
}.

(** A match object: [start()], [end()] and [span(1)]. *)
Record pymatch := {
  start : nat;
  end_ : nat;
  span1 : option (nat * nat)
}.

Definition newline : char := 10%N.

Infix "@@" := Seq (at level 60, right associativity).

(** [\s\S] inside a set: every character. *)
Definition any_char : cclass := CUnion CSpace (CNot CSpace).

(** ** The patterns of the rules *)

(** [\.frame\(width:\s*(\d+)\)] and [\.frame\(height:\s*(\d+)\)], each with its
    description. *)
Definition frame_patterns : list (regex * pystr) :=
  [ (Lit (py ".frame(width:") @@ Rep CSpace 0 true @@ Group (Rep CDigit 1 true)
       @@ Lit (py ")"),
     py "Hardcoded frame width");
    (Lit (py ".frame(height:") @@ Rep CSpace 0 true @@ Group (Rep CDigit 1 true)
       @@ Lit (py ")"),
     py "Hardcoded frame height") ].

(** [Color\(red:\s*[\d.]+], [Color\(\.sRGB,\s*red:], [Color\(hue:\s*[\d.]+],
    [UIColor\(red:\s*[\d.]+]. *)
Definition digit_or_dot : cclass := CUnion CDigit (CChar (chr ".")).

Definition color_patterns : list regex :=
  [ Lit (py "Color(red:") @@ Rep CSpace 0 true @@ Rep digit_or_dot 1 true;
    Lit (py "Color(.sRGB,") @@ Rep CSpace 0 true @@ Lit (py "red:");
    Lit (py "Color(hue:") @@ Rep CSpace 0 true @@ Rep digit_or_dot 1 true;
    Lit (py "UIColor(red:") @@ Rep CSpace 0 true @@ Rep digit_or_dot 1 true ].

(** [\.font\(\.system\(size:\s*(\d+)\)]. *)
Definition font_pattern : regex :=
  Lit (py ".font(.system(size:") @@ Rep CSpace 0 true @@ Group (Rep CDigit 1 true)
    @@ Lit (py ")").

(** [(?<!try)!\s*(?![=])]. *)
Definition force_unwrap_pattern : regex :=
  NotBehind (py "try") @@ Lit (py "!") @@ Rep CSpace 0 true
    @@ NotAhead (Set_ (CChar (chr "="))).

(** [Button\(.*?\)\s*\{[\s\S]*?\}[\s\S]*?\.frame\(.*?(?:width|height):\s*(\d+)\)].
    The MULTILINE flag the source passes changes [^] and [$] only; the pattern
    has neither. *)
Definition touch_pattern : regex :=
  Lit (py "Button(") @@ Rep CDot 0 false @@ Lit (py ")") @@ Rep CSpace 0 true
    @@ Lit (py "{") @@ Rep any_char 0 false @@ Lit (py "}") @@ Rep any_char 0 false
    @@ Lit (py ".frame(") @@ Rep CDot 0 false
    @@ Alt (Lit (py "width")) (Lit (py "height")) @@ Lit (py ":")
    @@ Rep CSpace 0 true @@ Group (Rep CDigit 1 true) @@ Lit (py ")").

(** [class\s+\w+ViewModel]. *)
Definition viewmodel_pattern : regex :=
  Lit (py "class") @@ Rep CSpace 1 true @@ Rep CWord 1 true @@ Lit (py "ViewModel").

(** [enum\s+State\s*\{]. *)
Definition state_enum_pattern : regex :=
  Lit (py "enum") @@ Rep CSpace 1 true @@ Lit (py "State") @@ Rep CSpace 0 true
    @@ Lit (py "{").

(** [Button\(]. *)
Definition button_open_pattern : regex := Lit (py "Button(").

(** ** Violations, analyzer instances and results *)

(** A violation dict; [line] is [None] when the key is absent. *)
Record Violation := {
  severity : pystr;
  rule : pystr;
  message : pystr;
  line : option nat
}.

(** A [SwiftAnalyzer] instance. *)
Record SwiftAnalyzer := {
  self_code : pystr;
  self_violations : list Violation
}.

Record Summary := {
  total : nat;
  errors : nat;
  warnings : nat
}.

(** The dict [analyze_swift_code] returns. *)
Record AnalysisResult := {
  status : pystr;
  result_violations : list Violation;
  summary : Summary
}.

(** The instances created so far, in creation order. *)
Definition heap := list SwiftAnalyzer.

(** ** Methods: state of the instance, and exceptions *)

(** A method body runs on [self]; it ends with a value or an exception, and
    leaves [self] as it is at that point. *)
Definition M (A : Type) : Type := SwiftAnalyzer -> (exn + A) * SwiftAnalyzer.

Definition ret {A : Type} (a : A) : M A := fun self => (inr a, self).

Definition bind {A B : Type} (m : M A) (f : A -> M B) : M B :=
  fun self =>
    match m self with
    | (inr a, self') => f a self'
    | (inl e, self') => (inl e, self')
    end.

(** An expression that may raise. *)
Definition lift {A : Type} (r : exn + A) : M A := fun self => (r, self).

Notation "x <- m ;; k" := (bind m (fun x => k))
  (at level 70, m at next level, right associativity).
Notation "m ;;; k" := (bind m (fun _ => k))
  (at level 70, right associativity).

(** [for x in xs: body(x)]. *)
Fixpoint for_each {A : Type} (xs : list A) (body : A -> M unit) : M unit :=
  match xs with
  | [] => ret tt
  | x :: xs' => body x ;;; for_each xs' body
  end.

(** [self.code]. *)
Definition get_code : M pystr := fun self => (inr (self_code self), self).

(** [self.violations]. *)
Definition get_violations : M (list Violation) :=
  fun self => (inr (self_violations self), self).

(** [SwiftAnalyzer.add_violation]: append a dict to [self.violations]. *)
Definition add_violation (sev rule_ msg : pystr) (line_ : option nat) : M unit :=
  fun self =>
    let violation :=
      {| severity := sev; rule := rule_; message := msg; line := line_ |} in
    (inr tt, {| self_code := self_code self;
                self_violations := self_violations self ++ [violation] |}).

(** [code[:offset].count('\n') + 1]. *)
Definition line_number (code : pystr) (offset : nat) : nat :=
  count (slice code 0 offset) newline + 1.

Definition is_some {A : Type} (o : option A) : bool :=
  match o with
  | Some _ => true
  | None => false
  end.

(** The loop of [check_accessibility_labels] over [range(start, len(code))]:
    [idx] is what is left of the range.  The result is [button_end] with the
    number of iterations run. *)
Fixpoint brace_loop (code : pystr) (idx : list nat) (brace_count : Z)
  (in_button : bool) (button_end : nat) (steps : nat) : exn + (nat * nat) :=
  match idx with
  | [] => inr (button_end, steps)
  | i :: idx' =>
      match nth_error code i with
      | None => inl IndexError
      | Some c =>
          if (c =? chr "{")%N then
            brace_loop code idx' (brace_count + 1)%Z true button_end (S steps)
          else if (c =? chr "}")%N then
            let brace_count' := (brace_count - 1)%Z in
            if in_button && (brace_count' =? 0)%Z then inr (i, S steps)
            else brace_loop code idx' brace_count' in_button button_end (S steps)
          else brace_loop code idx' brace_count in_button button_end (S steps)
      end
  end.

Section Analyzer.

Variable env : PyEnv.

(** *** Character categories *)

Definition digit_value (c : char) : option N :=
  if (c <? 128)%N then
    if (48 <=? c)%N && (c <=? 57)%N then Some (c - 48)%N else None
  else unicode_decimal env c.

(** [Py_UNICODE_ISDECIMAL], the category behind [\d]. *)
Definition isdecimal (c : char) : bool :=
  match digit_value c with
  | Some _ => true
  | None => false
  end.

(** [Py_UNICODE_ISSPACE], the category behind [\s]: below 128 the characters
    9 to 13 and 28 to 32. *)
Definition isspace (c : char) : bool :=
  if (c <? 128)%N then
    ((9 <=? c)%N && (c <=? 13)%N) || ((28 <=? c)%N && (c <=? 32)%N)
  else unicode_space env c.

(** [Py_UNICODE_ISALNUM] or an underscore, the category behind [\w]. *)
Definition isword (c : char) : bool :=
  if (c <? 128)%N then
    ((48 <=? c)%N && (c <=? 57)%N) || ((65 <=? c)%N && (c <=? 90)%N)
    || ((97 <=? c)%N && (c <=? 122)%N) || (c =? 95)%N
  else unicode_alnum env c.

Fixpoint in_class (c : cclass) (x : char) : bool :=
  match c with
  | CChar y => (x =? y)%N
  | CDigit => isdecimal x
  | CSpace => isspace x
  | CWord => isword x
  | CDot => negb (x =? newline)%N
  | CNot c' => negb (in_class c' x)
  | CUnion a b => in_class a x || in_class b x
  end.

(** *** [int] *)

Fixpoint digits_value (s : pystr) (acc : N) : option N :=
  match s with
  | [] => Some acc
  | c :: s' =>
      match digit_value c with
      | Some d => digits_value s' (10 * acc + d)%N
      | None => None
      end
  end.

(** [int(s)] on a string of decimal digits.  CPython refuses a string of
    more than [int_max_str_digits] digits with ValueError ("Exceeds the limit
    for integer string conversion"); it runs that test only on strings longer
    than 640 digits, and a limit of 0 switches it off.  The other spellings
    [int] accepts (sign, surrounding blanks, underscores) cannot come out of
    [(\d+)] and are refused here. *)
Definition py_int (x : option pystr) : exn + N :=
  match x with
  | None => inl TypeError
  | Some s =>
      match s with
      | [] => inl ValueError
      | _ :: _ =>
          match digits_value s 0 with
          | None => inl ValueError
          | Some n =>
              if (640 <? List.length s) && (0 <? int_max_str_digits env)
                 && (int_max_str_digits env <? List.length s)
              then inl ValueError
              else inr n
          end
      end
  end.

(** *** The backtracking matcher *)

Definition strip_prefix (sub s : pystr) : option pystr :=
  if starts_with sub s then Some (skipn (List.length sub) s) else None.

(** Greedy repetition of a one-character class: take one more character
    first, fall back to the continuation. *)
Fixpoint rep_greedy (p : char -> bool) (lo : nat) (rest : pystr) (pos : nat)
  (k : pystr -> nat -> option mstate) : option mstate :=
  match rest with
  | x :: rest' =>
      if p x then
        match rep_greedy p (pred lo) rest' (S pos) k with
        | Some r => Some r
        | None => if lo =? 0 then k rest pos else None
        end
      else if lo =? 0 then k rest pos else None
  | [] => if lo =? 0 then k rest pos else None
  end.

(** Lazy repetition: try the continuation first, take one more character
    when it fails. *)
Fixpoint rep_lazy (p : char -> bool) (lo : nat) (rest : pystr) (pos : nat)
  (k : pystr -> nat -> option mstate) : option mstate :=
  match (if lo =? 0 then k rest pos else None) with
  | Some r => Some r
  | None =>
      match rest with
      | x :: rest' => if p x then rep_lazy p (pred lo) rest' (S pos) k else None
      | [] => None
      end
  end.

(** [exec code r st k]: match [r] at [st] and hand the position reached to
    [k]; alternatives are tried in Python's priority order and the first
    success is the result. *)
Fixpoint exec (code : pystr) (r : regex) (st : mstate)
  (k : mstate -> option mstate) : option mstate :=
  match r with
  | Lit s =>
      match strip_prefix s (m_rest st) with
      | Some rest' =>
          k {| m_pos := m_pos st + List.length s; m_rest := rest'; m_g1 := m_g1 st |}
      | None => None
      end
  | Set_ c =>
      match m_rest st with
      | x :: rest' =>
          if in_class c x
          then k {| m_pos := S (m_pos st); m_rest := rest'; m_g1 := m_g1 st |}
          else None
      | [] => None
      end
  | Rep c lo greedy =>
      (if greedy then rep_greedy else rep_lazy) (in_class c) lo (m_rest st) (m_pos st)
        (fun rest' pos' => k {| m_pos := pos'; m_rest := rest'; m_g1 := m_g1 st |})
  | Seq r1 r2 => exec code r1 st (fun st' => exec code r2 st' k)
  | Alt r1 r2 =>
      match exec code r1 st k with
      | Some res => Some res
      | None => exec code r2 st k
      end
  | Group r' =>
      exec code r' st (fun st' =>
        k {| m_pos := m_pos st'; m_rest := m_rest st';
             m_g1 := Some (m_pos st, m_pos st') |})
  | NotBehind s =>
      if (List.length s <=? m_pos st)
         && str_eqb (slice code (m_pos st - List.length s) (m_pos st)) s
      then None else k st
  | NotAhead r' =>
      match exec code r' st (fun st' => Some st') with
      | Some _ => None
      | None => k st
      end
  end.

(** One attempt at offset [pos], where [rest] is [code[pos:]]. *)
Definition match_here (r : regex) (code : pystr) (pos : nat) (rest : pystr)
  : option pymatch :=
  match exec code r {| m_pos := pos; m_rest := rest; m_g1 := None |}
             (fun st' => Some st') with
  | Some st' => Some {| start := pos; end_ := m_pos st'; span1 := m_g1 st' |}
  | None => None
  end.

(** The scanner behind [re.finditer]: attempts at increasing offsets; after a
    match the next attempt is at its end.  [skip] counts the offsets still
    covered by the last match.  (After an empty match this scanner moves one
    offset on; none of the analyzer's patterns matches the empty string.) *)
Fixpoint scan (r : regex) (code : pystr) (rest : pystr) (pos : nat) (skip : nat)
  : list pymatch :=
  match skip with
  | S skip' =>
      match rest with
      | [] => []
      | _ :: rest' => scan r code rest' (S pos) skip'
      end
  | 0 =>
      match match_here r code pos rest with
      | Some m =>
          m :: match rest with
               | [] => []
               | _ :: rest' => scan r code rest' (S pos) (end_ m - pos - 1)
               end
      | None =>
          match rest with
          | [] => []
          | _ :: rest' => scan r code rest' (S pos) 0
          end
      end
  end.

Definition finditer (r : regex) (code : pystr) : list pymatch := scan r code code 0 0.

(** [re.search]: the first match, or [None]. *)
Definition search (r : regex) (code : pystr) : option pymatch :=
  match finditer r code with
  | m :: _ => Some m
  | [] => None
  end.

(** [match.group(1)]. *)
Definition group1 (code : pystr) (m : pymatch) : option pystr :=
  match span1 m with
  | Some (a, b) => Some (slice code a b)
  | None => None
  end.

(** ** The rules of [SwiftAnalyzer] *)

Definition frame_message (description : pystr) (size : option pystr) : pystr :=
  description ++ py ": " ++ fmt size
    ++ py "pt. Consider using minWidth/minHeight or semantic tokens.".

Definition check_hardcoded_frame_sizes : M unit :=
  code <- get_code ;;
  for_each frame_patterns (fun '(pattern, description) =>
    for_each (finditer pattern code) (fun m =>
      let size := group1 code m in
      let line_num := line_number code (start m) in
      add_violation (py "warning") (py "hardcoded_frame_size")
        (frame_message description size) (Some line_num))).

Definition color_message : pystr :=
  py "Hardcoded RGB/HSB color. Use semantic colors (e.g., .primary, .systemBackground) or Asset Catalog colors.".

Definition check_hardcoded_colors : M unit :=
  code <- get_code ;;
  for_each color_patterns (fun pattern =>
    for_each (finditer pattern code) (fun m =>
      let line_num := line_number code (start m) in
      add_violation (py "warning") (py "hardcoded_color") color_message
        (Some line_num))).

Definition font_message (size : option pystr) : pystr :=
  py "Hardcoded font size: " ++ fmt size
    ++ py "pt. Use semantic text styles (e.g., .body, .headline) for Dynamic Type support.".

Definition check_hardcoded_fonts : M unit :=
  code <- get_code ;;
  for_each (finditer font_pattern code) (fun m =>
    let size := group1 code m in
    let line_num := line_number code (start m) in
    add_violation (py "warning") (py "hardcoded_font_size") (font_message size)
      (Some line_num)).

Definition unwrap_message : pystr :=
  py "Force unwrapping (!) can cause crashes. Use optional binding (if let, guard let) or nil coalescing (??) instead.".

Definition check_force_unwrapping : M unit :=
  code <- get_code ;;
  for_each (finditer force_unwrap_pattern code) (fun m =>
    let line_start := (rfind code [newline] 0 (start m) + 1)%Z in
    let line_end := find code [newline] (start m) in
    let line_ :=
      if negb (line_end =? -1)%Z
      then slice code (Z.to_nat line_start) (Z.to_nat line_end)
      else skipn (Z.to_nat line_start) code in
    in_comment <-
      (if contains (py "//") line_ then
         i <- lift (index line_ (py "//")) ;;
         ret (Z.of_nat i <? Z.of_nat (start m) - line_start)%Z
       else ret false) ;;
    if in_comment then ret tt
    else
      let line_num := line_number code (start m) in
      add_violation (py "error") (py "force_unwrapping") unwrap_message
        (Some line_num)).

Definition touch_message (size : N) : pystr :=
  py "Touch target size is " ++ str_of_int size
    ++ py "pt, which is below the minimum 44pt. Use .frame(minWidth: 44, minHeight: 44) or add .contentShape(Rectangle()).".

Definition check_touch_target_sizes : M unit :=
  code <- get_code ;;
  for_each (finditer touch_pattern code) (fun m =>
    size <- lift (py_int (group1 code m)) ;;
    if (size <? 44)%N then
      let line_num := line_number code (start m) in
      add_violation (py "error") (py "touch_target_too_small") (touch_message size)
        (Some line_num)
    else ret tt).

Definition viewmodel_message : pystr :=
  py "ViewModel should expose a State enum (e.g., idle, loading, content, error) for state management.".

Definition check_viewmodel_state_enum : M unit :=
  code <- get_code ;;
  if negb (is_some (search viewmodel_pattern code)) then ret tt
  else if negb (is_some (search state_enum_pattern code)) then
    add_violation (py "warning") (py "missing_viewmodel_state") viewmodel_message None
  else ret tt.

Definition a11y_message : pystr :=
  py "Image-only button should have .accessibilityLabel() for VoiceOver support.".

(** The local [button_pattern] of the source is assigned and never used. *)
Definition check_accessibility_labels : M unit :=
  code <- get_code ;;
  let button_matches := finditer button_open_pattern code in
  for_each button_matches (fun m =>
    let start_ := start m in
    scanned <- lift (brace_loop code (seq start_ (List.length code - start_))
                       0%Z false start_ 0) ;;
    let button_end := fst scanned in
    let snippet := slice code start_ (Nat.min (button_end + 200) (List.length code)) in
    if contains (py "Image(") snippet
       && negb (contains (py ".accessibilityLabel") snippet)
    then
      let line_num := line_number code (start m) in
      add_violation (py "warning") (py "missing_accessibility_label") a11y_message
        (Some line_num)
    else ret tt).

(** [SwiftAnalyzer.analyze]. *)
Definition analyze : M (list Violation) :=
  check_hardcoded_frame_sizes ;;;
  check_hardcoded_colors ;;;
  check_hardcoded_fonts ;;;
  check_force_unwrapping ;;;
  check_touch_target_sizes ;;;
  check_viewmodel_state_enum ;;;
  check_accessibility_labels ;;;
  get_violations.

Definition count_severity (sev : pystr) (vs : list Violation) : nat :=
  List.length (filter (fun v => str_eqb (severity v) sev) vs).

(** [SwiftAnalyzer(code)]. *)
Definition new_analyzer (code : pystr) : SwiftAnalyzer :=
  {| self_code := code; self_violations := [] |}.

(** [analyze_swift_code]: a call creates its own instance, which stays behind
    in the heap when the call returns. *)
Definition analyze_swift_code (code : pystr) (h : heap)
  : (exn + AnalysisResult) * heap :=
  let analyzer := new_analyzer code in
  match analyze analyzer with
  | (inr violations_, analyzer') =>
      (inr {| status := py "success";
              result_violations := violations_;
              summary := {| total := List.length violations_;
                            errors := count_severity (py "error") violations_;
                            warnings := count_severity (py "warning") violations_ |} |},
       h ++ [analyzer'])
  | (inl e, analyzer') => (inl e, h ++ [analyzer'])
  end.

(** ** The rules as functions of the text

    What each rule appends to [self.violations], as a function of
    [self.code] alone; [analyze_unfold] below relates the methods to them. *)

Definition extend (self : SwiftAnalyzer) (vs : list Violation) : SwiftAnalyzer :=
  {| self_code := self_code self; self_violations := self_violations self ++ vs |}.

Definition mk_violation (sev rule_ msg : pystr) (line_ : option nat) : Violation :=
  {| severity := sev; rule := rule_; message := msg; line := line_ |}.

Definition frame_violation (code description : pystr) (m : pymatch) : Violation :=
  mk_violation (py "warning") (py "hardcoded_frame_size")
    (frame_message description (group1 code m)) (Some (line_number code (start m))).

Definition frame_violations (code : pystr) : list Violation :=
  flat_map (fun pd => map (frame_violation code (snd pd)) (finditer (fst pd) code))
    frame_patterns.

Definition color_violation (code : pystr) (m : pymatch) : Violation :=
  mk_violation (py "warning") (py "hardcoded_color") color_message
    (Some (line_number code (start m))).

Definition color_violations (code : pystr) : list Violation :=
  flat_map (fun pattern => map (color_violation code) (finditer pattern code))
    color_patterns.

Definition font_violation (code : pystr) (m : pymatch) : Violation :=
  mk_violation (py "warning") (py "hardcoded_font_size")
    (font_message (group1 code m)) (Some (line_number code (start m))).

Definition font_violations (code : pystr) : list Violation :=
  map (font_violation code) (finditer font_pattern code).

(** The line of the text around offset [p], as [check_force_unwrapping]
    cuts it out, with the offset its first character has in the text. *)
Definition line_start_of (code : pystr) (p : nat) : Z :=
  (rfind code [newline] 0 p + 1)%Z.

Definition line_of (code : pystr) (p : nat) : pystr :=
  if negb (find code [newline] p =? -1)%Z
  then slice code (Z.to_nat (line_start_of code p)) (Z.to_nat (find code [newline] p))
  else skipn (Z.to_nat (line_start_of code p)) code.

(** The test behind [continue]: the first [//] of the line starts before
    offset [p]. *)
Definition in_comment (code : pystr) (p : nat) : bool :=
  contains (py "//") (line_of code p)
  && (find (line_of code p) (py "//") 0 <? Z.of_nat p - line_start_of code p)%Z.

Definition unwrap_violation (code : pystr) (m : pymatch) : Violation :=
  mk_violation (py "error") (py "force_unwrapping") unwrap_message
    (Some (line_number code (start m))).

Definition unwrap_violations (code : pystr) : list Violation :=
  map (unwrap_violation code)
    (filter (fun m => negb (in_comment code (start m)))
       (finditer force_unwrap_pattern code)).

Definition touch_violation (code : pystr) (size : N) (m : pymatch) : Violation :=
  mk_violation (py "error") (py "touch_target_too_small") (touch_message size)
    (Some (line_number code (start m))).

(** The loop of [check_touch_target_sizes] over the matches [ms]: the
    violations appended, and the exception that ended the loop, if any. *)
Fixpoint touch_run (code : pystr) (ms : list pymatch) : list Violation * option exn :=
  match ms with
  | [] => ([], None)
  | m :: ms' =>
      match py_int (group1 code m) with
      | inl e => ([], Some e)
      | inr size =>
          let vs := if (size <? 44)%N then [touch_violation code size m] else [] in
          (vs ++ fst (touch_run code ms'), snd (touch_run code ms'))
      end
  end.

Definition touch_outcome (code : pystr) : list Violation * option exn :=
  touch_run code (finditer touch_pattern code).

Definition viewmodel_violations (code : pystr) : list Violation :=
  if is_some (search viewmodel_pattern code)
     && negb (is_some (search state_enum_pattern code))
  then [mk_violation (py "warning") (py "missing_viewmodel_state")
          viewmodel_message None]
  else [].

(** The balanced-delimiter scan from offset [i], where [rest] is the text
    from there on: the offset of the closing brace that brings the depth back
    to zero, if there is one. *)
Fixpoint scan_braces (rest : pystr) (i : nat) (brace_count : Z) (in_button : bool)
  : option nat :=
  match rest with
  | [] => None
  | c :: rest' =>
      if (c =? chr "{")%N then scan_braces rest' (S i) (brace_count + 1)%Z true
      else if (c =? chr "}")%N then
        if in_button && (brace_count - 1 =? 0)%Z then Some i
        else scan_braces rest' (S i) (brace_count - 1)%Z in_button
      else scan_braces rest' (S i) brace_count in_button
  end.

(** [button_end] when the loop is over. *)
Definition button_end_of (code : pystr) (start_ : nat) : nat :=
  match scan_braces (skipn start_ code) start_ 0%Z false with
  | Some e => e
  | None => start_
  end.

Definition snippet_of (code : pystr) (start_ : nat) : pystr :=
  slice code start_ (Nat.min (button_end_of code start_ + 200) (List.length code)).

Definition lacks_label (code : pystr) (m : pymatch) : bool :=
  contains (py "Image(") (snippet_of code (start m))
  && negb (contains (py ".accessibilityLabel") (snippet_of code (start m))).

Definition a11y_violation (code : pystr) (m : pymatch) : Violation :=
  mk_violation (py "warning") (py "missing_accessibility_label") a11y_message
    (Some (line_number code (start m))).

Definition a11y_violations (code : pystr) : list Violation :=
  map (a11y_violation code)
    (filter (lacks_label code) (finditer button_open_pattern code)).

(** The violations of a whole analysis, rule after rule, up to the rule that
    raises. *)
Definition rules_before_touch (code : pystr) : list Violation :=
  frame_violations code ++ color_violations code ++ font_violations code
    ++ unwrap_violations code.

Definition rules_after_touch (code : pystr) : list Violation :=
  viewmodel_violations code ++ a11y_violations code.

Definition all_violations (code : pystr) : list Violation :=
  rules_before_touch code ++ fst (touch_outcome code) ++ rules_after_touch code.

Definition make_result (vs : list Violation) : AnalysisResult :=
  {| status := py "success";
     result_violations := vs;
     summary := {| total := List.length vs;
                   errors := count_severity (py "error") vs;
                   warnings := count_severity (py "warning") vs |} |}.


Definition severity_ok (v : Violation) : Prop :=
  severity v = py "error" \/ severity v = py "warning".

(** [a] lies wholly before [b]: the order [re.finditer] yields matches in. *)
Definition before (a b : pymatch) : Prop :=
  start a < start b /\ end_ a <= start b.

(** *** What a pattern matches

    [denote code r st st']: from position [st] the pattern [r] can match the
    text up to position [st'].  The relation knows nothing of priorities and
    backtracking; [exec] finds a match exactly when there is one. *)
Fixpoint denote (code : pystr) (r : regex) (st st' : mstate) : Prop :=
  match r with
  | Lit s =>
      m_rest st = s ++ m_rest st'
      /\ m_pos st' = m_pos st + List.length s /\ m_g1 st' = m_g1 st
  | Set_ c =>
      exists x, m_rest st = x :: m_rest st' /\ in_class c x = true
                /\ m_pos st' = S (m_pos st) /\ m_g1 st' = m_g1 st
  | Rep c lo _ =>
      exists xs, m_rest st = xs ++ m_rest st' /\ forallb (in_class c) xs = true
                 /\ lo <= List.length xs
                 /\ m_pos st' = m_pos st + List.length xs /\ m_g1 st' = m_g1 st
  | Seq r1 r2 => exists mid, denote code r1 st mid /\ denote code r2 mid st'
  | Alt r1 r2 => denote code r1 st st' \/ denote code r2 st st'
  | Group r' =>
      exists mid, denote code r' st mid
                  /\ m_rest st' = m_rest mid /\ m_pos st' = m_pos mid
                  /\ m_g1 st' = Some (m_pos st, m_pos mid)
  | NotBehind s =>
      st' = st
      /\ ~ (List.length s <= m_pos st
            /\ slice code (m_pos st - List.length s) (m_pos st) = s)
  | NotAhead r' => st' = st /\ ~ exists st'', denote code r' st st''
  end.

(** The least number of characters a match of [r] takes. *)
Fixpoint min_length (r : regex) : nat :=
  match r with
  | Lit s => List.length s
  | Set_ _ => 1
  | Rep _ lo _ => lo
  | Seq r1 r2 => min_length r1 + min_length r2
  | Alt r1 r2 => Nat.min (min_length r1) (min_length r2)
  | Group r' => min_length r'
  | NotBehind _ => 0
  | NotAhead _ => 0
  end.

(** The patterns the analyzer scans with. *)
Definition analyzer_patterns : list regex :=
  map fst frame_patterns ++ color_patterns
  ++ [font_pattern; force_unwrap_pattern; touch_pattern; viewmodel_pattern;
      state_enum_pattern; button_open_pattern].

Definition init_state (pos : nat) (rest : pystr) : mstate :=
  {| m_pos := pos; m_rest := rest; m_g1 := None |}.

(** [r] matches somewhere in [code]. *)
Definition occurs (r : regex) (code : pystr) : Prop :=
  exists p st', p <= List.length code
                /\ denote code r (init_state p (skipn p code)) st'.


(** *** Where each violation comes from

    Every violation with the start offset of the match it reports ([None]
    for the file-scoped rule), grouped by the scan that produced it: one
    segment per pattern, in the order the scans run. *)
Definition report := (option nat * Violation)%type.

Definition reports_of (f : pymatch -> Violation) (ms : list pymatch) : list report :=
  map (fun m => (Some (start m), f m)) ms.

Fixpoint touch_reports (code : pystr) (ms : list pymatch) : list report :=
  match ms with
  | [] => []
  | m :: ms' =>
      match py_int (group1 code m) with
      | inl _ => []
      | inr size =>
          (if (size <? 44)%N then [(Some (start m), touch_violation code size m)]
           else [])
          ++ touch_reports code ms'
      end
  end.

Definition segments (code : pystr) : list (pystr * list report) :=
  map (fun pd => (py "hardcoded_frame_size",
                  reports_of (frame_violation code (snd pd)) (finditer (fst pd) code)))
    frame_patterns
  ++ map (fun pattern => (py "hardcoded_color",
                          reports_of (color_violation code) (finditer pattern code)))
       color_patterns
  ++ [ (py "hardcoded_font_size",
        reports_of (font_violation code) (finditer font_pattern code));
       (py "force_unwrapping",
        reports_of (unwrap_violation code)
          (filter (fun m => negb (in_comment code (start m)))
             (finditer force_unwrap_pattern code)));
       (py "touch_target_too_small",
        touch_reports code (finditer touch_pattern code));
       (py "missing_viewmodel_state",
        map (fun v => (None, v)) (viewmodel_violations code));
       (py "missing_accessibility_label",
        reports_of (a11y_violation code)
          (filter (lacks_label code) (finditer button_open_pattern code))) ].

Definition offset_lt (a b : option nat) : Prop :=
  match a, b with
  | Some x, Some y => x < y
  | _, _ => False
  end.

(** Strictly ascending start offsets. *)
Definition ascending (l : list (option nat)) : Prop := StronglySorted offset_lt l.

(** The start offsets behind the violations of one rule, in the order the
    violations are returned. *)
Definition rule_offsets (code rule_ : pystr) : list (option nat) :=
  flat_map (fun seg => if str_eqb (fst seg) rule_ then map fst (snd seg) else [])
    (segments code).

Definition rule_order : list pystr :=
  [ py "hardcoded_frame_size"; py "hardcoded_color"; py "hardcoded_font_size";
    py "force_unwrapping"; py "touch_target_too_small";
    py "missing_viewmodel_state"; py "missing_accessibility_label" ].

(** The scans behind [rule_order]: two for the frame sizes, four for the
    colors, one for every other rule. *)
Definition scan_order : list pystr :=
  [ py "hardcoded_frame_size"; py "hardcoded_frame_size";
    py "hardcoded_color"; py "hardcoded_color"; py "hardcoded_color";
    py "hardcoded_color"; py "hardcoded_font_size";
    py "force_unwrapping"; py "touch_target_too_small";
    py "missing_viewmodel_state"; py "missing_accessibility_label" ].

(** *** Balanced delimiters, in the words of the specification *)

(** The brace depth a text leaves: [+1] per opening, [-1] per closing brace. *)
Fixpoint depth (s : pystr) : Z :=
  match s with
  | [] => 0%Z
  | c :: s' =>
      ((if (c =? chr "{")%N then 1 else if (c =? chr "}")%N then -1 else 0)
       + depth s')%Z
  end.

Definition has_open (s : pystr) : bool := existsb (fun c => (c =? chr "{")%N) s.

(** The closing brace at offset [k] ends the span that starts at [start_]:
    an opening brace came before it and the depth is back to zero with it. *)
Definition closes_at (code : pystr) (start_ k : nat) : Prop :=
  nth_error code k = Some (chr "}")
  /\ has_open (slice code start_ k) = true
  /\ depth (slice code start_ (S k)) = 0%Z.

(** The text ends before the depth returns to zero. *)
Definition unbalanced (code : pystr) (start_ : nat) : Prop :=
  forall k, start_ <= k -> ~ closes_at code start_ k.

(** *** Frame directives *)

(** The shape shared by the two frame patterns and the font pattern: a
    literal opening, blanks, a captured run of digits, a closing
    parenthesis. *)
Definition sized_pattern (opening : pystr) : regex :=
  Lit opening @@ Rep CSpace 0 true @@ Group (Rep CDigit 1 true) @@ Lit (py ")").

Definition combined_directive : pystr := py ".frame(width: 100, height: 50)".

(** *** Color constructors *)







(** *** ViewModel files *)








Definition rule_is (name : pystr) (v : Violation) : bool := str_eqb (rule v) name.

(** *** Forced unwraps, in the words of the specification *)

Definition is_newline (c : char) : bool := (c =? newline)%N.









(** *** Touch targets and integer conversion *)

(** [int] refuses a string of this many digits. *)
Definition int_refuses (ds : pystr) : bool :=
  (640 <? List.length ds) && (0 <? int_max_str_digits env)
  && (int_max_str_digits env <? List.length ds).

(** What [check_touch_target_sizes] reports for one match when the
    conversion of its group succeeds. *)
Definition touch_report (code : pystr) (m : pymatch) : list Violation :=
  match py_int (group1 code m) with
  | inr size => if (size <? 44)%N then [touch_violation code size m] else []
  | inl _ => []
  end.


(** [int] accepts the digits of every touch-target match of the text: the
    analysis of such a text raises nothing. *)
Definition literals_accepted (code : pystr) : Prop :=
  forall m ds,
    In m (finditer touch_pattern code) -> group1 code m = Some ds ->
    int_refuses ds = false.

(** *** Lines and counts, rule by rule *)

(** The patterns whose matches the rules report. *)
Definition trigger_patterns : list regex :=
  map fst frame_patterns ++ color_patterns
  ++ [font_pattern; force_unwrap_pattern; touch_pattern; viewmodel_pattern;
      button_open_pattern].

(** The number of lines of a text. *)
Definition line_count (code : pystr) : nat := count code newline + 1.

(** A violation of the file-scoped rule has no line; any other one has a
    line of the text. *)
Definition line_ok (code : pystr) (v : Violation) : Prop :=
  match line v with
  | Some l => 1 <= l <= line_count code /\ rule v <> py "missing_viewmodel_state"
  | None => rule v = py "missing_viewmodel_state"
  end.

(** How many violations of a rule a list holds. *)
Definition count_rule (name : pystr) (vs : list Violation) : nat :=
  List.length (filter (rule_is name) vs).

Definition line_le (a b : option nat) : Prop :=
  match a, b with
  | Some x, Some y => x <= y
  | _, _ => False
  end.

(** *** Occurrences inside a window *)

(** [sub] stands in the text at offset [i]. *)
Definition stands_at (sub code : pystr) (i : nat) : Prop :=
  starts_with sub (skipn i code) = true.

(** [sub] stands in the text somewhere from offset [lo] on and ends at or
    before offset [hi]. *)
Definition stands_within (sub code : pystr) (lo hi : nat) : Prop :=
  exists i, lo <= i /\ i + List.length sub <= hi /\ stands_at sub code i.

(** *** Sized directives *)

(** At offset [p] the text reads [opening], blanks, the non-empty run of
    decimal digits [ds] and a closing parenthesis. *)
Definition sized_directive_at (opening code : pystr) (p : nat) (ds : pystr) : Prop :=
  exists ws rest,
    skipn p code = opening ++ ws ++ ds ++ py ")" ++ rest
    /\ forallb isspace ws = true
    /\ forallb isdecimal ds = true /\ ds <> [].


(** The openings of the two frame patterns, each with its description. *)
Definition frame_openings : list (pystr * pystr) :=
  [ (py ".frame(width:", py "Hardcoded frame width");
    (py ".frame(height:", py "Hardcoded frame height") ].

(** The first two characters of [opening] do not stand again inside it, and
    its first character is neither a blank, nor a digit, nor a closing
    parenthesis: a match of [sized_pattern opening] cannot start inside
    another one. *)
Definition self_avoiding (opening : pystr) : Prop :=
  match opening with
  | c0 :: c1 :: _ =>
      isspace c0 = false /\ isdecimal c0 = false /\ c0 <> chr ")"
      /\ forall i, 1 <= i -> nth_error opening i = Some c0 ->
                   S i < List.length opening
                   /\ nth_error opening (S i) <> Some c1
  | _ => False
  end.

(** *** The command-line adapter *)

(** The values [json.loads] builds.  Of a float [main] asks only whether it
    is zero; the entries of an object have distinct keys. *)
Unset Elimination Schemes.
Inductive json :=
| JNull
| JBool (b : bool)
| JInt (z : Z)
| JFloat (is_zero : bool)
| JStr (s : pystr)
| JList (items : list json)
| JDict (entries : list (pystr * json)).
Set Elimination Schemes.

(** [bool(v)], the test of [if not code]. *)
Definition truthy (v : json) : bool :=
  match v with
  | JNull => false
  | JBool b => b
  | JInt z => negb (z =? 0)%Z
  | JFloat is_zero => negb is_zero
  | JStr s => negb (str_eqb s [])
  | JList items => match items with [] => false | _ :: _ => true end
  | JDict entries => match entries with [] => false | _ :: _ => true end
  end.

(** [d.get(key, default)]. *)
Fixpoint dict_get (entries : list (pystr * json)) (key : pystr) (default : json)
  : json :=
  match entries with
  | [] => default
  | (k, v) :: entries' =>
      if str_eqb k key then v else dict_get entries' key default
  end.

(** How [sys.stdin.read()] followed by [json.loads] ends: with a value, with
    [json.JSONDecodeError], or with another exception (an input that is not
    valid UTF-8, a nesting too deep); [text] is [str(e)]. *)
Inductive loaded :=
| Loaded (request : json)
| JSONDecodeError (text : pystr)
| OtherError (text : pystr).

(** What [main] catches once the request is loaded. *)
Inductive caught :=
| AttributeError (request : json)  (* [request.get] on a value that is no object *)
| NotAString (code : json)         (* TypeError of [re.finditer] on a code that is no [str] *)
| Raised (e : exn).                (* raised by the analysis of a [str] *)

(** The [json] module and the texts of exceptions, as the interpreter
    provides them. *)
Record PyJson := {
  json_loads : pystr -> loaded;
  str_of_exception : caught -> pystr
}.

(** What [main] prints: a result, or [{status: error, message: ...}]. *)
Inductive payload :=
| Success (result_ : AnalysisResult)
| ErrorPayload (message : pystr).

(** [main()] on the text of standard input: what it prints and the exit
    status of the process, 1 after [sys.exit(1)] and 0 when [main]
    returns.  Writing to standard output is taken to succeed. *)
Definition main (io : PyJson) (input_data : pystr) : payload * nat :=
  match json_loads io input_data with
  | JSONDecodeError text =>
      (ErrorPayload (py "Invalid JSON input: " ++ text), 1)
  | OtherError text =>
      (ErrorPayload (py "Analysis failed: " ++ text), 1)
  | Loaded request =>
      match request with
      | JDict entries =>
          let code := dict_get entries (py "code") (JStr []) in
          if negb (truthy code) then
            (ErrorPayload (py "No Swift code provided for analysis."), 0)
          else
            match code with
            | JStr s =>
                match fst (analyze_swift_code s []) with
                | inr result_ => (Success result_, 0)
                | inl e =>
                    (ErrorPayload (py "Analysis failed: "
                                   ++ str_of_exception io (Raised e)), 1)
                end
            | _ =>
                (ErrorPayload (py "Analysis failed: "
                               ++ str_of_exception io (NotAString code)), 1)
            end
      | _ =>
          (ErrorPayload (py "Analysis failed: "
                         ++ str_of_exception io (AttributeError request)), 1)
      end
  end.

(** *** Sample texts *)

(** An opening brace that is never closed, and an image 250 characters
    further on. *)
Definition unclosed_button : pystr :=
  py "Button(action: {" ++ repeat (chr " ") 250 ++ py "Image(systemName: x)".

(** A control followed by a frame directive whose width has 4301 digits. *)
Definition long_literal : pystr :=
  py "Button(){}.frame(width:" ++ repeat (chr "1") 4301 ++ py ")".



(** A control whose braces hold an image and no label. *)
Definition image_button : pystr := py "Button(a) { Image(b) }".

(** An empty control followed by [pad] blanks and the start of an image. *)
Definition image_at_edge (pad : nat) : pystr :=
  py "Button(){}" ++ repeat (chr " ") pad ++ py "Image(".

(** The request whose [code] entry is [x!]. *)
Definition sample_request : pystr :=
  py "{" ++ [34%N] ++ py "code" ++ [34%N] ++ py ": " ++ [34%N] ++ py "x!"
  ++ [34%N] ++ py "}".

(** A [json] module that knows three inputs: [sample_request], the empty
    object and the empty array. *)
Definition sample_json : PyJson := {|
  json_loads := fun input_data =>
    if str_eqb input_data sample_request
    then Loaded (JDict [(py "code", JStr (py "x!"))])
    else if str_eqb input_data (py "{}") then Loaded (JDict [])
    else if str_eqb input_data (py "[]") then Loaded (JList [])
    else JSONDecodeError (py "Expecting value: line 1 column 1 (char 0)");
  str_of_exception := fun c =>
    match c with
    | AttributeError _ => py "'list' object has no attribute 'get'"
    | NotAString _ => py "expected string or bytes-like object"
    | Raised _ => py "Exceeds the limit (4300 digits) for integer string conversion"
    end
|}.

(** * Properties *)

(** ** Methods and rules agree *)

(** A method body that appends [vs] to the violations of every instance
    holding [code], and neither raises nor touches anything else. *)
Definition appends (m : M unit) (code : pystr) (vs : list Violation) : Prop :=
  forall self, self_code self = code -> m self = (inr tt, extend self vs).

Lemma extend_nil self : extend self [] = self.
Proof. destruct self; unfold extend; simpl. now rewrite app_nil_r. Qed.

Lemma extend_extend self a b : extend (extend self a) b = extend self (a ++ b).
Proof. unfold extend; simpl. now rewrite app_assoc. Qed.

Lemma extend_code self vs : self_code (extend self vs) = self_code self.
Proof. reflexivity. Qed.

Lemma appends_ret code : appends (ret tt) code [].
Proof. intros self _. unfold ret. now rewrite extend_nil. Qed.

Lemma appends_add code sev r msg l :
  appends (add_violation sev r msg l) code [mk_violation sev r msg l].
Proof. intros self _. reflexivity. Qed.

Lemma appends_seq m1 m2 code a b :
  appends m1 code a -> appends m2 code b -> appends (m1 ;;; m2) code (a ++ b).
Proof.
  intros H1 H2 self Hc. unfold bind. rewrite (H1 self Hc).
  rewrite H2 by (now rewrite extend_code). now rewrite extend_extend.
Qed.

Lemma appends_for_each {A : Type} (body : A -> M unit) (f : A -> list Violation) code xs :
  (forall x, In x xs -> appends (body x) code (f x)) ->
  appends (for_each xs body) code (flat_map f xs).
Proof.
  induction xs as [|x xs IH]; intros H; simpl.
  - apply appends_ret.
  - apply appends_seq.
    + apply H. now left.
    + apply IH. intros y Hy. apply H. now right.
Qed.

Lemma appends_get_code (k : pystr -> M unit) code vs :
  appends (k code) code vs -> appends (c <- get_code ;; k c) code vs.
Proof.
  intros H self Hc. unfold bind, get_code. rewrite Hc. now apply H.
Qed.

Lemma flat_map_singleton {A B : Type} (f : A -> B) xs :
  flat_map (fun x => [f x]) xs = map f xs.
Proof. induction xs; simpl; congruence. Qed.

Lemma flat_map_filter {A B : Type} (p : A -> bool) (f : A -> B) xs :
  flat_map (fun x => if p x then [f x] else []) xs = map f (filter p xs).
Proof.
  induction xs as [|x xs IH]; simpl; [reflexivity|].
  destruct (p x); simpl; congruence.
Qed.

Lemma check_frame_appends code :
  appends check_hardcoded_frame_sizes code (frame_violations code).
Proof.
  apply appends_get_code. unfold frame_violations.
  apply appends_for_each. intros [pattern description] _. simpl.
  rewrite <- flat_map_singleton.
  apply appends_for_each. intros m _. apply appends_add.
Qed.

Lemma check_colors_appends code :
  appends check_hardcoded_colors code (color_violations code).
Proof.
  apply appends_get_code. unfold color_violations.
  apply appends_for_each. intros pattern _.
  rewrite <- flat_map_singleton.
  apply appends_for_each. intros m _. apply appends_add.
Qed.

Lemma check_fonts_appends code :
  appends check_hardcoded_fonts code (font_violations code).
Proof.
  apply appends_get_code. unfold font_violations.
  rewrite <- flat_map_singleton.
  apply appends_for_each. intros m _. apply appends_add.
Qed.

(** [line.index('//')] is only reached behind ['//' in line], so it never
    raises. *)
Lemma check_unwrap_appends code :
  appends check_force_unwrapping code (unwrap_violations code).
Proof.
  apply appends_get_code. unfold unwrap_violations.
  rewrite <- flat_map_filter.
  apply appends_for_each. intros m _ self Hc.
  cbv zeta. fold (line_start_of code (start m)). fold (line_of code (start m)).
  unfold in_comment, bind, lift, index, contains.
  set (ln := line_of code (start m)).
  destruct (find ln (py "//") 0 =? -1)%Z eqn:Hf; simpl.
  - reflexivity.
  - rewrite Z2Nat.id.
    + destruct (_ <? _)%Z; simpl; [unfold ret; now rewrite extend_nil | reflexivity].
    + assert (forall sub s i, (-1 <= find_from sub s i)%Z) as Hge.
      { intros sub s. induction s as [|c s IH]; intros i; simpl;
          destruct (starts_with sub _); try lia. apply IH. }
      unfold find in *. destruct (0 <=? List.length ln); [|discriminate].
      apply Z.eqb_neq in Hf. specialize (Hge (py "//") (skipn 0 ln) 0). lia.
Qed.

Lemma check_viewmodel_appends code :
  appends check_viewmodel_state_enum code (viewmodel_violations code).
Proof.
  apply appends_get_code. unfold viewmodel_violations.
  destruct (is_some (search viewmodel_pattern code)); simpl.
  - destruct (is_some (search state_enum_pattern code)); simpl.
    + apply appends_ret.
    + apply appends_add.
  - apply appends_ret.
Qed.

Lemma skipn_cons_nth {A : Type} (l : list A) i c rest :
  skipn i l = c :: rest -> nth_error l i = Some c /\ skipn (S i) l = rest.
Proof.
  revert i. induction l as [|x l IH]; intros i H.
  - destruct i; discriminate.
  - destruct i; simpl in *.
    + inversion H. now split.
    + now apply IH.
Qed.

(** The loop never indexes outside the text, runs at most once per character
    from [i] on, and ends with the offset [scan_braces] finds, or with
    [button_end] untouched. *)
Lemma brace_loop_scan code : forall rest i bc inb be steps,
  skipn i code = rest ->
  exists n, n <= List.length rest /\
    brace_loop code (seq i (List.length rest)) bc inb be steps
    = inr (match scan_braces rest i bc inb with Some e => e | None => be end,
           steps + n).
Proof.
  induction rest as [|c rest IH]; intros i bc inb be steps Hs; simpl.
  - exists 0. split; [lia|]. now rewrite Nat.add_0_r.
  - destruct (skipn_cons_nth _ _ _ _ Hs) as [Hn Hs']. rewrite Hn.
    destruct (c =? 123)%N.
    + destruct (IH (S i) (bc + 1)%Z true be (S steps) Hs') as [n [Hle ->]].
      exists (S n). split; [lia|]. f_equal. f_equal. lia.
    + destruct (c =? 125)%N.
      * destruct (inb && (bc - 1 =? 0)%Z).
        -- exists 1. split; [lia|]. f_equal. f_equal. lia.
        -- destruct (IH (S i) (bc - 1)%Z inb be (S steps) Hs') as [n [Hle ->]].
           exists (S n). split; [lia|]. f_equal. f_equal. lia.
      * destruct (IH (S i) bc inb be (S steps) Hs') as [n [Hle ->]].
        exists (S n). split; [lia|]. f_equal. f_equal. lia.
Qed.

Lemma brace_loop_button_end code start_ :
  exists n, n <= List.length code - start_ /\
    brace_loop code (seq start_ (List.length code - start_)) 0%Z false start_ 0
    = inr (button_end_of code start_, n).
Proof.
  destruct (brace_loop_scan code _ start_ 0%Z false start_ 0 eq_refl)
    as [n [Hle H]].
  rewrite length_skipn in *. exists n. split; [exact Hle|]. exact H.
Qed.

Lemma check_a11y_appends code :
  appends check_accessibility_labels code (a11y_violations code).
Proof.
  apply appends_get_code. unfold a11y_violations. cbv zeta.
  rewrite <- flat_map_filter.
  apply appends_for_each. intros m _ self Hc.
  destruct (brace_loop_button_end code (start m)) as [n [_ H]].
  unfold bind, lift. rewrite H. cbn [fst].
  change (slice code (start m) _) with (snippet_of code (start m)).
  change (contains _ _ && negb _) with (lacks_label code m).
  destruct (lacks_label code m).
  - reflexivity.
  - unfold ret. now rewrite extend_nil.
Qed.

(** [check_touch_target_sizes] appends what [touch_run] lists and raises
    what it raises. *)
Lemma check_touch_outcome code self :
  self_code self = code ->
  check_touch_target_sizes self
  = (match snd (touch_outcome code) with Some e => inl e | None => inr tt end,
     extend self (fst (touch_outcome code))).
Proof.
  intros Hc. unfold check_touch_target_sizes, touch_outcome, bind at 1, get_code.
  rewrite Hc. clear Hc.
  generalize (finditer touch_pattern code) as ms.
  intros ms. revert self.
  match goal with |- context [for_each ms ?b] => set (body := b) end.
  induction ms as [|m ms IH]; intros self; simpl.
  - unfold ret. now rewrite extend_nil.
  - unfold bind at 1. unfold body at 1. unfold bind, lift.
    destruct (py_int (group1 code m)) as [e|size]; simpl.
    + now rewrite extend_nil.
    + destruct (size <? 44)%N; simpl.
      * unfold add_violation.
        change {| self_code := self_code self;
                  self_violations := self_violations self ++ ?v |}
          with (extend self v).
        rewrite IH. now rewrite extend_extend.
      * unfold ret. rewrite IH. reflexivity.
Qed.

Lemma bind_appends {B : Type} (m : M unit) (k : M B) code vs self :
  appends m code vs -> self_code self = code ->
  (m ;;; k) self = k (extend self vs).
Proof. intros H Hc. unfold bind. now rewrite (H self Hc). Qed.

(** [analyze] on any instance: the violations of the text are appended to
    the ones the instance already holds. *)
Lemma analyze_unfold self :
  analyze self
  = match snd (touch_outcome (self_code self)) with
    | None => (inr (self_violations self ++ all_violations (self_code self)),
               extend self (all_violations (self_code self)))
    | Some e => (inl e,
                 extend self
                   (rules_before_touch (self_code self)
                    ++ fst (touch_outcome (self_code self))))
    end.
Proof.
  unfold analyze. set (code := self_code self).
  erewrite bind_appends by first [apply check_frame_appends | reflexivity].
  erewrite bind_appends by first [apply check_colors_appends | reflexivity].
  erewrite bind_appends by first [apply check_fonts_appends | reflexivity].
  erewrite bind_appends by first [apply check_unwrap_appends | reflexivity].
  rewrite !extend_extend. fold (rules_before_touch code).
  unfold bind at 1. rewrite check_touch_outcome with (code := code) by reflexivity.
  destruct (snd (touch_outcome code)) as [e|].
  - now rewrite extend_extend.
  - erewrite bind_appends by first [apply check_viewmodel_appends | reflexivity].
    erewrite bind_appends by first [apply check_a11y_appends | reflexivity].
    unfold get_violations, all_violations, rules_after_touch.
    rewrite !extend_extend. reflexivity.
Qed.

(** Run a second time on the same instance, [analyze] returns every
    violation twice: the list lives in the instance. *)
Lemma analyze_accumulates code vs self' :
  analyze (new_analyzer code) = (inr vs, self') ->
  fst (analyze self') = inr (vs ++ vs).
Proof.
  rewrite analyze_unfold. cbn [new_analyzer self_code self_violations].
  destruct (snd (touch_outcome code)) eqn:Ht; [discriminate|].
  intros H. injection H as <- <-.
  rewrite analyze_unfold. cbn [extend new_analyzer self_code self_violations].
  rewrite Ht. reflexivity.
Qed.

(** What a call returns, whatever instances earlier calls left in the heap. *)
Lemma analyze_swift_code_unfold code h :
  fst (analyze_swift_code code h)
  = match snd (touch_outcome code) with
    | None => inr (make_result (all_violations code))
    | Some e => inl e
    end.
Proof.
  unfold analyze_swift_code. rewrite analyze_unfold.
  cbn [new_analyzer self_code self_violations].
  destruct (snd (touch_outcome code)); reflexivity.
Qed.

(** ** Severities and the summary *)

Lemma count_severity_total vs :
  Forall severity_ok vs ->
  count_severity (py "error") vs + count_severity (py "warning") vs = List.length vs.
Proof.
  unfold count_severity. induction 1 as [|v vs Hv _ IH]; simpl; [reflexivity|].
  destruct Hv as [-> | ->]; simpl; lia.
Qed.

Lemma Forall_map_const {A : Type} (P : Violation -> Prop) (f : A -> Violation) xs :
  (forall x, P (f x)) -> Forall P (map f xs).
Proof. intros H. apply Forall_forall. intros v Hv. apply in_map_iff in Hv as [x [<- _]]. apply H. Qed.

Lemma touch_run_severity code ms : Forall severity_ok (fst (touch_run code ms)).
Proof.
  induction ms as [|m ms IH]; simpl; [constructor|].
  destruct (py_int (group1 code m)) as [e|size]; simpl; [constructor|].
  destruct (size <? 44)%N; simpl; [constructor; [now left | exact IH] | exact IH].
Qed.

Lemma all_violations_severity code : Forall severity_ok (all_violations code).
Proof.
  assert (Forall severity_ok (frame_violations code)) as H1.
  { apply Forall_flat_map, Forall_forall. intros pd _.
    apply Forall_map_const. intros m. now right. }
  assert (Forall severity_ok (color_violations code)) as H2.
  { apply Forall_flat_map, Forall_forall. intros pd _.
    apply Forall_map_const. intros m. now right. }
  assert (Forall severity_ok (font_violations code)) as H3.
  { apply Forall_map_const. intros m. now right. }
  assert (Forall severity_ok (unwrap_violations code)) as H4.
  { apply Forall_map_const. intros m. now left. }
  assert (Forall severity_ok (viewmodel_violations code)) as H5.
  { unfold viewmodel_violations. destruct (_ && _); [|constructor].
    constructor; [now right | constructor]. }
  assert (Forall severity_ok (a11y_violations code)) as H6.
  { apply Forall_map_const. intros m. now right. }
  pose proof (touch_run_severity code (finditer touch_pattern code)) as H7.
  unfold all_violations, rules_before_touch, rules_after_touch, touch_outcome.
  rewrite !Forall_app. tauto.
Qed.

(** C1.  Whenever a call of [analyze_swift_code] returns a result, its summary
    has [total == len(violations)] and [errors + warnings == total], and every
    violation carries the severity "error" or the severity "warning". *)
Theorem summary_invariant code h r :
  fst (analyze_swift_code code h) = inr r ->
  total (summary r) = List.length (result_violations r)
  /\ errors (summary r) + warnings (summary r) = total (summary r)
  /\ Forall severity_ok (result_violations r).
Proof.
  rewrite analyze_swift_code_unfold.
  destruct (snd (touch_outcome code)); [discriminate|].
  intros H. injection H as <-. simpl.
  pose proof (all_violations_severity code) as Hs.
  repeat split; [now apply count_severity_total | exact Hs].
Qed.

(** ** No state between calls *)

(** C7.  Two calls of [analyze_swift_code] on the same text, the second one
    running on the heap the first one left, end the same way: with equal
    results or with the same exception.  More generally the outcome of a call
    does not depend on the heap it starts from. *)
Theorem analyze_swift_code_idempotent code h :
  fst (analyze_swift_code code (snd (analyze_swift_code code h)))
  = fst (analyze_swift_code code h)
  /\ forall h', fst (analyze_swift_code code h') = fst (analyze_swift_code code h).
Proof.
  split; [|intros h']; now rewrite !analyze_swift_code_unfold.
Qed.

(** ** The matcher finds a match exactly when there is one *)

Lemma starts_with_app sub s :
  starts_with sub s = true <-> s = sub ++ skipn (List.length sub) s.
Proof.
  revert s. induction sub as [|a sub IH]; intros s; simpl.
  - split; reflexivity.
  - destruct s as [|b s]; [split; discriminate|].
    rewrite andb_true_iff, N.eqb_eq, IH. split.
    + intros [-> H]. now f_equal.
    + intros H. injection H as -> H. now split.
Qed.

Lemma starts_with_prefix sub t : starts_with sub (sub ++ t) = true.
Proof.
  apply starts_with_app. rewrite skipn_app, skipn_all, Nat.sub_diag. reflexivity.
Qed.

Lemma skipn_prefix {A : Type} (xs t : list A) : skipn (List.length xs) (xs ++ t) = t.
Proof. rewrite skipn_app, skipn_all, Nat.sub_diag. reflexivity. Qed.

Lemma str_eqb_eq a b : str_eqb a b = true <-> a = b.
Proof.
  revert b. induction a as [|x a IH]; intros [|y b]; simpl;
    try (split; [discriminate | congruence]); [split; reflexivity|].
  rewrite andb_true_iff, N.eqb_eq, IH. split; [intros [-> ->] | intros H; injection H]; auto.
Qed.

Lemma mstate_eta st :
  {| m_pos := m_pos st; m_rest := m_rest st; m_g1 := m_g1 st |} = st.
Proof. now destruct st. Qed.

Lemma rep_greedy_sound p : forall rest lo pos k res,
  rep_greedy p lo rest pos k = Some res ->
  exists xs rest', rest = xs ++ rest' /\ forallb p xs = true
                   /\ lo <= List.length xs
                   /\ k rest' (pos + List.length xs) = Some res.
Proof.
  assert (forall rest lo pos (k : pystr -> nat -> option mstate) res,
            (if lo =? 0 then k rest pos else None) = Some res ->
            exists xs rest', rest = xs ++ rest' /\ forallb p xs = true
                             /\ lo <= List.length xs
                             /\ k rest' (pos + List.length xs) = Some res) as Hstop.
  { intros rest lo pos k res H. destruct (Nat.eqb_spec lo 0); [|discriminate].
    exists [], rest. simpl. rewrite Nat.add_0_r. repeat split; [lia | exact H]. }
  induction rest as [|x rest IH]; intros lo pos k res H; simpl in H.
  - now apply Hstop.
  - destruct (p x) eqn:Hp; [|now apply Hstop].
    destruct (rep_greedy p (pred lo) rest (S pos) k) eqn:Hin; [|now apply Hstop].
    injection H as <-. apply IH in Hin as [xs [rest' [-> [Hall [Hlo Hk]]]]].
    exists (x :: xs), rest'. simpl. rewrite Hp, Hall.
    repeat split; [lia|]. now rewrite <- Nat.add_succ_comm.
Qed.

Lemma rep_greedy_complete p : forall xs rest' lo pos k res,
  forallb p xs = true -> lo <= List.length xs ->
  k rest' (pos + List.length xs) = Some res ->
  exists res', rep_greedy p lo (xs ++ rest') pos k = Some res'.
Proof.
  induction xs as [|x xs IH]; intros rest' lo pos k res Hall Hlo Hk; simpl in *.
  - assert (lo = 0) by lia. subst lo. rewrite Nat.add_0_r in Hk.
    destruct rest' as [|y rest']; simpl; [eauto|].
    destruct (p y); [|eauto].
    destruct (rep_greedy p 0 rest' (S pos) k); eauto.
  - apply andb_true_iff in Hall as [Hp Hall]. rewrite Hp.
    destruct (IH rest' (pred lo) (S pos) k res Hall) as [res' ->]; [lia| |eauto].
    now rewrite Nat.add_succ_comm.
Qed.

Lemma rep_lazy_sound p : forall rest lo pos k res,
  rep_lazy p lo rest pos k = Some res ->
  exists xs rest', rest = xs ++ rest' /\ forallb p xs = true
                   /\ lo <= List.length xs
                   /\ k rest' (pos + List.length xs) = Some res.
Proof.
  induction rest as [|x rest IH]; intros lo pos k res H; simpl in H.
  - destruct (Nat.eqb_spec lo 0); [|discriminate].
    destruct (k [] pos) eqn:Hk; [|discriminate]. injection H as <-.
    exists [], []. simpl. rewrite Nat.add_0_r. repeat split; [lia | exact Hk].
  - destruct (if lo =? 0 then k (x :: rest) pos else None) eqn:Hk.
    + injection H as <-. destruct (Nat.eqb_spec lo 0); [|discriminate].
      exists [], (x :: rest). simpl. rewrite Nat.add_0_r.
      repeat split; [lia | exact Hk].
    + destruct (p x) eqn:Hp; [|discriminate].
      apply IH in H as [xs [rest' [-> [Hall [Hlo Hk']]]]].
      exists (x :: xs), rest'. simpl. rewrite Hp, Hall.
      repeat split; [lia|]. now rewrite <- Nat.add_succ_comm.
Qed.

Lemma rep_lazy_complete p : forall xs rest' lo pos k res,
  forallb p xs = true -> lo <= List.length xs ->
  k rest' (pos + List.length xs) = Some res ->
  exists res', rep_lazy p lo (xs ++ rest') pos k = Some res'.
Proof.
  induction xs as [|x xs IH]; intros rest' lo pos k res Hall Hlo Hk; simpl in *.
  - assert (lo = 0) by lia. subst lo. rewrite Nat.add_0_r in Hk.
    destruct rest' as [|y rest']; simpl; rewrite Hk; eauto.
  - apply andb_true_iff in Hall as [Hp Hall]. rewrite Hp.
    destruct (if lo =? 0 then k (x :: xs ++ rest') pos else None); [eauto|].
    apply (IH rest' (pred lo) (S pos) k res Hall); [lia|].
    now rewrite Nat.add_succ_comm.
Qed.

Lemma exec_correct code r :
  (forall st k res,
     exec code r st k = Some res ->
     exists st', denote code r st st' /\ k st' = Some res)
  /\ (forall st st' k res,
        denote code r st st' -> k st' = Some res ->
        exists res', exec code r st k = Some res').
Proof.
  induction r as [s|c|c lo greedy|r1 [S1 C1] r2 [S2 C2]|r1 [S1 C1] r2 [S2 C2]
                  |r' [S' C']|s|r' [S' C']]; split; simpl.
  - intros st k res H. unfold strip_prefix in H.
    destruct (starts_with s (m_rest st)) eqn:Hs; [|discriminate].
    apply starts_with_app in Hs. eexists. split; [|exact H]. simpl. auto.
  - intros st st' k res [Hr [Hp Hg]] Hk. unfold strip_prefix.
    rewrite Hr, starts_with_prefix, skipn_prefix, <- Hp, <- Hg, mstate_eta.
    eauto.
  - intros st k res H. destruct (m_rest st) as [|x rest] eqn:Hr; [discriminate|].
    destruct (in_class c x) eqn:Hc; [|discriminate].
    eexists. split; [|exact H]. exists x. simpl. auto.
  - intros st st' k res [x [Hr [Hc [Hp Hg]]]] Hk.
    rewrite Hr, Hc, <- Hp, <- Hg, mstate_eta. eauto.
  - intros st k res H.
    assert (exists xs rest', m_rest st = xs ++ rest'
              /\ forallb (in_class c) xs = true /\ lo <= List.length xs
              /\ k {| m_pos := m_pos st + List.length xs; m_rest := rest';
                      m_g1 := m_g1 st |} = Some res)
      as [xs [rest' [Hr [Hall [Hlo Hk]]]]].
    { destruct greedy; [apply rep_greedy_sound in H | apply rep_lazy_sound in H];
        exact H. }
    eexists. split; [|exact Hk]. exists xs. simpl. auto.
  - intros st st' k res [xs [Hr [Hall [Hlo [Hp Hg]]]]] Hk. rewrite Hr.
    destruct greedy;
      [eapply rep_greedy_complete | eapply rep_lazy_complete]; eauto;
      rewrite <- Hp, <- Hg, mstate_eta; exact Hk.
  - intros st k res H. apply S1 in H as [mid [H1 H]].
    apply S2 in H as [st' [H2 H]]. eauto.
  - intros st st' k res [mid [H1 H2]] Hk.
    destruct (C2 _ _ _ _ H2 Hk) as [res2 Hres2].
    exact (C1 _ _ (fun st0 => exec code r2 st0 k) _ H1 Hres2).
  - intros st k res H. destruct (exec code r1 st k) eqn:H1.
    + injection H as <-. apply S1 in H1 as [st' [Hd Hk]]. eauto.
    + apply S2 in H as [st' [Hd Hk]]. eauto.
  - intros st st' k res [Hd|Hd] Hk.
    + destruct (C1 _ _ _ _ Hd Hk) as [res' ->]. eauto.
    + destruct (exec code r1 st k); [eauto|]. exact (C2 _ _ _ _ Hd Hk).
  - intros st k res H. apply S' in H as [mid [Hd Hk]].
    eexists. split; [|exact Hk]. exists mid. simpl. auto.
  - intros st st' k res [mid [Hd [Hr [Hp Hg]]]] Hk.
    eapply C'; [exact Hd|]. simpl. rewrite <- Hg, <- Hr, <- Hp, mstate_eta. exact Hk.
  - intros st k res H.
    destruct ((List.length s <=? m_pos st)
              && str_eqb (slice code (m_pos st - List.length s) (m_pos st)) s)
      eqn:Hb; [discriminate|].
    exists st. split; [|exact H]. split; [reflexivity|].
    intros [Hl He]. apply Nat.leb_le in Hl. apply str_eqb_eq in He.
    rewrite Hl, He in Hb. discriminate.
  - intros st st' k res [-> Hn] Hk.
    destruct ((List.length s <=? m_pos st)
              && str_eqb (slice code (m_pos st - List.length s) (m_pos st)) s)
      eqn:Hb; [|eauto].
    exfalso. apply Hn. apply andb_true_iff in Hb as [Hl He].
    apply Nat.leb_le in Hl. apply str_eqb_eq in He. now split.
  - intros st k res H.
    destruct (exec code r' st (fun st' => Some st')) eqn:He; [discriminate|].
    exists st. split; [|exact H]. split; [reflexivity|].
    intros [st'' Hd]. destruct (C' _ _ (fun st' => Some st') _ Hd eq_refl) as [res' Hr].
    congruence.
  - intros st st' k res [-> Hn] Hk.
    destruct (exec code r' st (fun st' => Some st')) eqn:He; [|eauto].
    exfalso. apply Hn. apply S' in He as [st'' [Hd _]]. eauto.
Qed.

Lemma match_here_sound r code p rest m :
  match_here r code p rest = Some m ->
  exists st', denote code r (init_state p rest) st'
              /\ m = {| start := p; end_ := m_pos st'; span1 := m_g1 st' |}.
Proof.
  unfold match_here. fold (init_state p rest).
  destruct (exec code r (init_state p rest) (fun st' => Some st')) as [st1|] eqn:He;
    [|discriminate].
  intros H. injection H as <-.
  apply (proj1 (exec_correct code r)) in He as [st' [Hd Hk]].
  injection Hk as <-. eauto.
Qed.

Lemma match_here_complete r code p rest st' :
  denote code r (init_state p rest) st' ->
  exists m, match_here r code p rest = Some m.
Proof.
  intros Hd. unfold match_here. fold (init_state p rest).
  destruct (proj2 (exec_correct code r) _ _ (fun st => Some st) _ Hd eq_refl)
    as [res' ->].
  eauto.
Qed.

(** ** The scanner *)

Lemma StronglySorted_filter {A : Type} (R : A -> A -> Prop) (p : A -> bool) l :
  StronglySorted R l -> StronglySorted R (filter p l).
Proof.
  induction 1 as [|x l Hs IH Hall]; simpl; [constructor|].
  destruct (p x); [|exact IH]. constructor; [exact IH|].
  apply Forall_forall. intros y Hy. apply filter_In in Hy as [Hy _].
  revert y Hy. now apply Forall_forall.
Qed.


Lemma match_here_start r code pos rest m :
  match_here r code pos rest = Some m -> start m = pos.
Proof.
  unfold match_here. destruct (exec _ _ _ _); [|discriminate].
  intros H. injection H as <-. reflexivity.
Qed.

Lemma scan_bounds r code : forall rest pos skip m,
  In m (scan r code rest pos skip) ->
  pos + skip <= start m <= pos + List.length rest.
Proof.
  induction rest as [|c rest IH]; intros pos skip m Hin.
  - destruct skip; simpl in Hin; [|contradiction].
    destruct (match_here r code pos []) eqn:Hm; [|contradiction].
    destruct Hin as [<-|[]]. apply match_here_start in Hm. simpl. lia.
  - destruct skip; simpl in Hin.
    + destruct (match_here r code pos (c :: rest)) eqn:Hm.
      * destruct Hin as [<-|Hin].
        -- apply match_here_start in Hm. simpl. lia.
        -- apply IH in Hin. simpl. lia.
      * apply IH in Hin. simpl. lia.
    + apply IH in Hin. simpl. lia.
Qed.

(** The matches come in increasing order and do not overlap. *)
Lemma scan_sorted r code : forall rest pos skip,
  StronglySorted before (scan r code rest pos skip).
Proof.
  induction rest as [|c rest IH]; intros pos skip.
  - destruct skip; simpl; [|constructor].
    destruct (match_here r code pos []); repeat constructor.
  - destruct skip; simpl; [|apply IH].
    destruct (match_here r code pos (c :: rest)) eqn:Hm; [|apply IH].
    constructor; [apply IH|].
    apply Forall_forall. intros m' Hin. apply scan_bounds in Hin.
    apply match_here_start in Hm. unfold before. lia.
Qed.

(** Every match the scanner yields is the result of the attempt at its start. *)
Lemma scan_sound r code : forall rest pos skip m,
  In m (scan r code rest pos skip) ->
  match_here r code (start m) (skipn (start m - pos) rest) = Some m.
Proof.
  induction rest as [|c rest IH]; intros pos skip m Hin.
  - destruct skip; simpl in Hin; [|contradiction].
    destruct (match_here r code pos []) eqn:Hm; [|contradiction].
    destruct Hin as [<-|[]]. rewrite (match_here_start _ _ _ _ _ Hm).
    rewrite Nat.sub_diag. exact Hm.
  - assert (forall skip', In m (scan r code rest (S pos) skip') ->
              match_here r code (start m) (skipn (start m - pos) (c :: rest)) = Some m)
      as Htail.
    { intros skip' Hin'. pose proof (scan_bounds _ _ _ _ _ _ Hin') as Hb.
      apply IH in Hin'.
      replace (start m - pos) with (S (start m - S pos)) by lia. exact Hin'. }
    destruct skip; simpl in Hin; [|now apply Htail in Hin].
    destruct (match_here r code pos (c :: rest)) eqn:Hm; [|now apply Htail in Hin].
    destruct Hin as [<-|Hin]; [|now apply Htail in Hin].
    rewrite (match_here_start _ _ _ _ _ Hm). rewrite Nat.sub_diag. exact Hm.
Qed.

(** An attempt that succeeds at an offset no earlier match reaches beyond is
    among the matches the scanner yields. *)
Lemma scan_complete r code : forall rest pos skip p m,
  pos + skip <= p <= pos + List.length rest ->
  match_here r code p (skipn (p - pos) rest) = Some m ->
  (forall m', In m' (scan r code rest pos skip) -> start m' < p -> end_ m' <= p) ->
  In m (scan r code rest pos skip).
Proof.
  induction rest as [|c rest IH]; intros pos skip p m Hp Hm Hcov.
  - simpl in Hp. assert (skip = 0) by lia. subst skip.
    assert (p = pos) by lia. subst p. rewrite Nat.sub_diag in Hm. simpl in *.
    rewrite Hm. now left.
  - assert (forall skip', S pos + skip' <= p ->
              (forall m', In m' (scan r code rest (S pos) skip') ->
                          start m' < p -> end_ m' <= p) ->
              In m (scan r code rest (S pos) skip')) as Htail.
    { intros skip' Hle Hc. apply IH with (p := p); [simpl in Hp; lia| |exact Hc].
      replace (p - pos) with (S (p - S pos)) in Hm by lia. exact Hm. }
    destruct skip; simpl in *.
    + destruct (Nat.eq_dec p pos) as [->|Hne].
      * rewrite Nat.sub_diag in Hm. simpl in Hm. rewrite Hm. now left.
      * destruct (match_here r code pos (c :: rest)) as [m0|] eqn:Hm0.
        -- right. pose proof (match_here_start _ _ _ _ _ Hm0) as Hs0.
           assert (end_ m0 <= p) by (apply Hcov; [now left | lia]).
           apply Htail; [lia|]. intros m' Hin. apply Hcov. now right.
        -- apply Htail; [lia | exact Hcov].
    + apply Htail; [lia | exact Hcov].
Qed.

Lemma finditer_sorted r code : StronglySorted before (finditer r code).
Proof. apply scan_sorted. Qed.

Lemma finditer_sound r code m :
  In m (finditer r code) ->
  start m <= List.length code
  /\ match_here r code (start m) (skipn (start m) code) = Some m.
Proof.
  intros Hin. split.
  - apply scan_bounds in Hin. lia.
  - apply scan_sound in Hin. now rewrite Nat.sub_0_r in Hin.
Qed.

Lemma finditer_complete r code p m :
  p <= List.length code ->
  match_here r code p (skipn p code) = Some m ->
  (forall m', In m' (finditer r code) -> start m' < p -> end_ m' <= p) ->
  In m (finditer r code).
Proof.
  intros Hp Hm Hcov. apply scan_complete with (p := p); [lia| |exact Hcov].
  now rewrite Nat.sub_0_r.
Qed.

Lemma denote_min_length code r : forall st st',
  denote code r st st' -> m_pos st + min_length r <= m_pos st'.
Proof.
  induction r as [s|c|c lo greedy|r1 IH1 r2 IH2|r1 IH1 r2 IH2|r' IH|s|r' IH];
    intros st st' H; simpl in *.
  - lia.
  - destruct H as [x [_ [_ [H _]]]]. lia.
  - destruct H as [xs [_ [_ [Hlo [H _]]]]]. lia.
  - destruct H as [mid [H1 H2]]. apply IH1 in H1. apply IH2 in H2. lia.
  - destruct H as [H|H]; [apply IH1 in H | apply IH2 in H]; lia.
  - destruct H as [mid [H [_ [Hp _]]]]. apply IH in H. lia.
  - destruct H as [-> _]. lia.
  - destruct H as [-> _]. lia.
Qed.

(** No pattern of the analyzer matches the empty string, so the scanner is
    never in the situation where [re.finditer] treats an empty match
    specially. *)
Lemma analyzer_matches_nonempty r code p rest m :
  In r analyzer_patterns ->
  match_here r code p rest = Some m -> start m < end_ m.
Proof.
  intros Hr Hm. apply match_here_sound in Hm as [st' [Hd ->]].
  apply denote_min_length in Hd. cbn [start end_ init_state m_pos] in *.
  assert (1 <= min_length r); [|lia].
  unfold analyzer_patterns in Hr. simpl in Hr.
  repeat (destruct Hr as [<-|Hr]; [vm_compute; lia|]). contradiction.
Qed.

(** A pattern that occurs nowhere yields no match. *)
Lemma finditer_absent r code : ~ occurs r code -> finditer r code = [].
Proof.
  intros Hn. destruct (finditer r code) as [|m ms] eqn:Hf; [reflexivity|].
  exfalso. apply Hn.
  destruct (finditer_sound r code m) as [Hle Hm]; [rewrite Hf; now left|].
  apply match_here_sound in Hm as [st' [Hd _]].
  exists (start m), st'. now split.
Qed.


(** ** Order of the violations *)

Lemma reports_of_ascending f ms :
  StronglySorted before ms -> ascending (map fst (reports_of f ms)).
Proof.
  unfold ascending, reports_of. induction 1 as [|m ms Hs IH Hall]; simpl; constructor.
  - exact IH.
  - rewrite map_map. apply Forall_forall. intros o Ho.
    apply in_map_iff in Ho as [m' [<- Hin]]. simpl.
    rewrite Forall_forall in Hall. now apply Hall.
Qed.

Lemma touch_reports_ascending code ms :
  StronglySorted before ms -> ascending (map fst (touch_reports code ms)).
Proof.
  unfold ascending.
  assert (forall ms o, In o (map fst (touch_reports code ms)) ->
                       exists m, In m ms /\ o = Some (start m)) as Hsub.
  { induction ms0 as [|m0 ms0 IH]; simpl; intros o Ho; [contradiction|].
    destruct (py_int (group1 code m0)); [contradiction|].
    rewrite map_app in Ho. apply in_app_or in Ho as [Ho|Ho].
    - destruct (_ <? _)%N; [|contradiction]. destruct Ho as [<-|[]].
      exists m0. split; [now left | reflexivity].
    - destruct (IH _ Ho) as [m [Hin ->]]. exists m. split; [now right | reflexivity]. }
  induction 1 as [|m ms Hs IH Hall]; simpl; [constructor|].
  destruct (py_int (group1 code m)); [constructor|].
  destruct (_ <? _)%N; simpl; [|exact IH].
  constructor; [exact IH|].
  apply Forall_forall. intros o Ho. destruct (Hsub _ _ Ho) as [m' [Hin ->]].
  simpl. rewrite Forall_forall in Hall. now apply Hall.
Qed.

Lemma touch_reports_violations code ms :
  map snd (touch_reports code ms) = fst (touch_run code ms).
Proof.
  induction ms as [|m ms IH]; simpl; [reflexivity|].
  destruct (py_int (group1 code m)); [reflexivity|].
  rewrite map_app, IH. destruct (_ <? _)%N; reflexivity.
Qed.

Lemma touch_reports_rule code ms :
  Forall (fun t : report => rule (snd t) = py "touch_target_too_small")
    (touch_reports code ms).
Proof.
  induction ms as [|m ms IH]; simpl; [constructor|].
  destruct (py_int (group1 code m)); [constructor|].
  apply Forall_app. split; [|exact IH].
  destruct (_ <? _)%N; repeat constructor.
Qed.

Lemma reports_of_violations f ms : map snd (reports_of f ms) = map f ms.
Proof. unfold reports_of. rewrite map_map. reflexivity. Qed.

Lemma reports_of_rule f ms name :
  (forall m, rule (f m) = name) ->
  Forall (fun t : report => rule (snd t) = name) (reports_of f ms).
Proof.
  intros H. apply Forall_forall. intros t Ht.
  apply in_map_iff in Ht as [m [<- _]]. apply H.
Qed.

Lemma segments_violations code :
  flat_map (fun seg => map snd (snd seg)) (segments code) = all_violations code.
Proof.
  unfold segments, all_violations, rules_before_touch, rules_after_touch,
    frame_violations, color_violations, font_violations, unwrap_violations,
    a11y_violations, touch_outcome.
  simpl. rewrite !reports_of_violations, touch_reports_violations, map_map.
  simpl. rewrite map_id, !app_nil_r, <- !app_assoc. reflexivity.
Qed.

(** C8, amended.  The violations of a result are the segments of
    [segments] one after the other: the scans run in the fixed order
    [scan_order], which follows the rule order with one scan per pattern (two
    for hardcoded_frame_size, four for hardcoded_color); every violation of a
    segment carries the segment's rule; inside a segment the start offsets of
    the reported matches ascend strictly. *)
Theorem violations_order code h r :
  fst (analyze_swift_code code h) = inr r ->
  result_violations r = flat_map (fun seg => map snd (snd seg)) (segments code)
  /\ map fst (segments code) = scan_order
  /\ Forall (fun seg => Forall (fun t : report => rule (snd t) = fst seg) (snd seg)
                        /\ ascending (map fst (snd seg)))
       (segments code).
Proof.
  rewrite analyze_swift_code_unfold.
  destruct (snd (touch_outcome code)); [discriminate|].
  intros H. injection H as <-. simpl result_violations.
  split; [now rewrite segments_violations|]. split; [reflexivity|].
  unfold segments. simpl.
  repeat (apply Forall_cons; [split|]); try apply Forall_nil;
    try (apply reports_of_rule; intros m; reflexivity);
    try (apply reports_of_ascending);
    try (apply StronglySorted_filter);
    try apply finditer_sorted.
  - apply touch_reports_rule.
  - apply touch_reports_ascending, finditer_sorted.
  - unfold viewmodel_violations. destruct (_ && _); repeat constructor.
  - unfold viewmodel_violations, ascending. destruct (_ && _); repeat constructor.
Qed.

(** ** Violations by rule *)

Lemma touch_run_returns code ms :
  snd (touch_run code ms) = None ->
  fst (touch_run code ms) = flat_map (touch_report code) ms.
Proof.
  induction ms as [|m ms IH]; simpl; [reflexivity|].
  unfold touch_report at 1.
  destruct (py_int (group1 code m)); simpl; [discriminate|].
  intros H. now rewrite IH.
Qed.

Lemma filter_other_rule name name' l :
  Forall (fun v => rule v = name') l -> str_eqb name' name = false ->
  filter (rule_is name) l = [].
Proof.
  intros Hall Hne. induction Hall as [|v l Hv _ IH]; simpl; [reflexivity|].
  unfold rule_is at 1. now rewrite Hv, Hne.
Qed.

Lemma filter_same_rule name l :
  Forall (fun v => rule v = name) l -> filter (rule_is name) l = l.
Proof.
  intros Hall. induction Hall as [|v l Hv _ IH]; simpl; [reflexivity|].
  unfold rule_is at 1. rewrite Hv.
  replace (str_eqb name name) with true by (symmetry; now apply str_eqb_eq).
  now rewrite IH.
Qed.

(** The violations of a whole analysis, rule by rule. *)
Lemma all_violations_rules code :
  Forall (fun v => rule v = py "hardcoded_frame_size") (frame_violations code)
  /\ Forall (fun v => rule v = py "hardcoded_color") (color_violations code)
  /\ Forall (fun v => rule v = py "hardcoded_font_size") (font_violations code)
  /\ Forall (fun v => rule v = py "force_unwrapping") (unwrap_violations code)
  /\ Forall (fun v => rule v = py "touch_target_too_small") (fst (touch_outcome code))
  /\ Forall (fun v => rule v = py "missing_viewmodel_state") (viewmodel_violations code)
  /\ Forall (fun v => rule v = py "missing_accessibility_label") (a11y_violations code).
Proof.
  repeat split.
  - apply Forall_flat_map, Forall_forall. intros pd _.
    apply Forall_map_const. reflexivity.
  - apply Forall_flat_map, Forall_forall. intros pd _.
    apply Forall_map_const. reflexivity.
  - apply Forall_map_const. reflexivity.
  - apply Forall_map_const. reflexivity.
  - unfold touch_outcome. rewrite <- touch_reports_violations.
    apply Forall_map. apply touch_reports_rule.
  - unfold viewmodel_violations. destruct (_ && _); [|constructor].
    constructor; [reflexivity | constructor].
  - apply Forall_map_const. reflexivity.
Qed.

(** The violations of a result, rule by rule. *)
Lemma result_by_rule code h r :
  fst (analyze_swift_code code h) = inr r ->
  filter (rule_is (py "hardcoded_frame_size")) (result_violations r)
  = frame_violations code
  /\ filter (rule_is (py "hardcoded_color")) (result_violations r)
     = color_violations code
  /\ filter (rule_is (py "hardcoded_font_size")) (result_violations r)
     = font_violations code
  /\ filter (rule_is (py "force_unwrapping")) (result_violations r)
     = unwrap_violations code
  /\ filter (rule_is (py "touch_target_too_small")) (result_violations r)
     = flat_map (touch_report code) (finditer touch_pattern code)
  /\ filter (rule_is (py "missing_viewmodel_state")) (result_violations r)
     = viewmodel_violations code
  /\ filter (rule_is (py "missing_accessibility_label")) (result_violations r)
     = a11y_violations code.
Proof.
  rewrite analyze_swift_code_unfold.
  destruct (snd (touch_outcome code)) eqn:Hsnd; [discriminate|].
  intros H. injection H as <-. cbn [make_result result_violations].
  destruct (all_violations_rules code) as [H1 [H2 [H3 [H4 [H5 [H6 H7]]]]]].
  rewrite <- (touch_run_returns code _ Hsnd). fold (touch_outcome code).
  unfold all_violations, rules_before_touch, rules_after_touch.
  rewrite !filter_app.
  repeat split;
    repeat first
      [ rewrite (filter_same_rule _ _ H1) | rewrite (filter_same_rule _ _ H2)
      | rewrite (filter_same_rule _ _ H3) | rewrite (filter_same_rule _ _ H4)
      | rewrite (filter_same_rule _ _ H5) | rewrite (filter_same_rule _ _ H6)
      | rewrite (filter_same_rule _ _ H7)
      | rewrite (filter_other_rule _ _ _ H1) by reflexivity
      | rewrite (filter_other_rule _ _ _ H2) by reflexivity
      | rewrite (filter_other_rule _ _ _ H3) by reflexivity
      | rewrite (filter_other_rule _ _ _ H4) by reflexivity
      | rewrite (filter_other_rule _ _ _ H5) by reflexivity
      | rewrite (filter_other_rule _ _ _ H6) by reflexivity
      | rewrite (filter_other_rule _ _ _ H7) by reflexivity ];
    simpl; now rewrite ?app_nil_r.
Qed.

(** ** Hardcoded frame sizes *)

Lemma skipn_app_decompose {A : Type} (l : list A) p xs t :
  skipn p l = xs ++ t -> skipn (p + List.length xs) l = t.
Proof.
  intros H. rewrite Nat.add_comm, <- skipn_skipn, H. apply skipn_prefix.
Qed.

Lemma slice_of_skipn code p xs t :
  skipn p code = xs ++ t -> slice code p (p + List.length xs) = xs.
Proof.
  intros H. unfold slice. rewrite H.
  replace (p + List.length xs - p) with (List.length xs) by lia.
  rewrite firstn_app, firstn_all, Nat.sub_diag. simpl. apply app_nil_r.
Qed.

(** A match of a sized pattern is its opening, blanks, a non-empty run of
    decimal digits, which is group 1, and a closing parenthesis right after
    the last digit. *)
Lemma sized_pattern_shape opening code p m :
  match_here (sized_pattern opening) code p (skipn p code) = Some m ->
  exists ws ds rest',
    skipn p code = opening ++ ws ++ ds ++ py ")" ++ rest'
    /\ forallb isspace ws = true
    /\ forallb isdecimal ds = true /\ ds <> []
    /\ group1 code m = Some ds
    /\ end_ m = p + List.length (opening ++ ws ++ ds ++ py ")").
Proof.
  intros H. apply match_here_sound in H as [st' [Hd ->]].
  simpl in Hd.
  destruct Hd as [s1 [[Hr1 [Hp1 Hg1]] [s2 [[ws [Hr2 [Hws [_ [Hp2 Hg2]]]]]
                 [s3 [[s4 [[ds [Hr4 [Hds [Hlen [Hp4 Hg4]]]]] [Hr3 [Hp3 Hg3]]]]
                        [Hr5 [Hp5 Hg5]]]]]]]].
  exists ws, ds, (m_rest st').
  assert (skipn p code = opening ++ ws ++ ds ++ py ")" ++ m_rest st') as Hcode.
  { rewrite Hr1, Hr2, Hr4, <- Hr3, Hr5. reflexivity. }
  split; [exact Hcode|]. split; [exact Hws|]. split; [exact Hds|].
  split; [destruct ds; [simpl in Hlen; lia | discriminate]|].
  split.
  - unfold group1. simpl. rewrite Hg5, Hg3, Hp4.
    f_equal. apply slice_of_skipn with (t := py ")" ++ m_rest st').
    rewrite Hp2, Hp1. rewrite <- Nat.add_assoc, <- length_app.
    apply skipn_app_decompose. now rewrite <- app_assoc.
  - simpl. rewrite Hp5, Hp3, Hp4, Hp2, Hp1. rewrite !length_app. simpl. lia.
Qed.

Lemma skipn_inside {A : Type} (pre mid post : list A) i :
  skipn (List.length pre + i) (pre ++ mid ++ post) = skipn i (mid ++ post).
Proof.
  rewrite Nat.add_comm, <- skipn_skipn. now rewrite skipn_prefix.
Qed.

(** C10.  Each hardcoded_frame_size match is [.frame(width:] or
    [.frame(height:], blanks, an integer literal and a closing parenthesis
    right after it; no such match starts inside a combined directive
    [.frame(width: 100, height: 50)], wherever it stands in the text, and the
    directive alone yields no hardcoded_frame_size violation.  The
    hardcoded_frame_size violations of a result are the ones of these
    matches. *)
Theorem combined_frame_not_flagged :
  (forall code pd m,
     In pd frame_patterns -> In m (finditer (fst pd) code) ->
     exists kw ws ds rest',
       (kw = py "width" \/ kw = py "height")
       /\ skipn (start m) code
          = py ".frame(" ++ kw ++ py ":" ++ ws ++ ds ++ py ")" ++ rest'
       /\ forallb isspace ws = true
       /\ forallb isdecimal ds = true /\ ds <> []
       /\ group1 code m = Some ds)
  /\ (forall pre post pd m,
        In pd frame_patterns ->
        In m (finditer (fst pd) (pre ++ combined_directive ++ post)) ->
        start m < List.length pre
        \/ List.length pre + List.length combined_directive <= start m)
  /\ frame_violations combined_directive = []
  /\ (forall code h r,
        fst (analyze_swift_code code h) = inr r ->
        filter (rule_is (py "hardcoded_frame_size")) (result_violations r)
        = frame_violations code).
Proof.
  split; [|split; [|split]]; cycle 3.
  { intros code h r H. now destruct (result_by_rule code h r H) as (H1 & _). }
  - intros code pd m Hpd Hm. apply finditer_sound in Hm as [_ Hm].
    destruct Hpd as [<-|[<-|[]]];
      apply sized_pattern_shape in Hm
        as [ws [ds [rest' [Hc [Hws [Hds [Hne [Hg _]]]]]]]];
      [exists (py "width") | exists (py "height")]; exists ws, ds, rest';
      (split; [auto|]); (split; [exact Hc|]); auto.
  - intros pre post pd m Hpd Hm. apply finditer_sound in Hm as [_ Hm].
    destruct (Nat.lt_ge_cases (start m) (List.length pre)) as [Hlt|Hge];
      [now left|].
    destruct (Nat.lt_ge_cases (start m)
                (List.length pre + List.length combined_directive)) as [Hin|Hout];
      [exfalso | now right].
    remember (start m - List.length pre) as i eqn:Hi.
    replace (start m) with (List.length pre + i) in Hm by lia.
    rewrite skipn_inside in Hm.
    assert (i < 30) as Hi30 by (change (List.length combined_directive) with 30 in Hin; lia).
    clear Hi Hin Hge.
    destruct Hpd as [<-|[<-|[]]];
      do 30 (destruct i as [|i]; [cbv in Hm; discriminate|]); lia.
  - vm_compute. reflexivity.
Qed.

(** ** Hardcoded colors *)





Lemma nth_error_of_skipn (code : pystr) p xs t i :
  skipn p code = xs ++ t -> i < List.length xs ->
  nth_error code (p + i) = nth_error xs i.
Proof.
  intros H Hi. rewrite <- nth_error_skipn, H. now apply nth_error_app1.
Qed.



Lemma count_app a b c : count (a ++ b) c = count a c + count b c.
Proof. unfold count. now rewrite filter_app, length_app. Qed.


(** ** ViewModel files *)

Lemma search_occurs r code : is_some (search r code) = true <-> occurs r code.
Proof.
  unfold search. split.
  - destruct (finditer r code) as [|m ms] eqn:Hf; [discriminate|]. intros _.
    destruct (finditer_sound r code m) as [Hle Hm]; [rewrite Hf; now left|].
    apply match_here_sound in Hm as [st' [Hd _]]. exists (start m), st'. now split.
  - intros [p [st' [Hle Hd]]].
    apply match_here_complete in Hd as [m Hm].
    destruct (finditer r code) as [|m0 ms] eqn:Hf; [|reflexivity].
    apply finditer_complete in Hm; [|exact Hle|].
    + rewrite Hf in Hm. contradiction.
    + rewrite Hf. intros m' [].
Qed.

Lemma denote_lit code s pos t g :
  denote code (Lit s) {| m_pos := pos; m_rest := s ++ t; m_g1 := g |}
    {| m_pos := pos + List.length s; m_rest := t; m_g1 := g |}.
Proof. simpl. auto. Qed.

Lemma denote_rep code c lo greedy xs pos t g :
  forallb (in_class c) xs = true -> lo <= List.length xs ->
  denote code (Rep c lo greedy) {| m_pos := pos; m_rest := xs ++ t; m_g1 := g |}
    {| m_pos := pos + List.length xs; m_rest := t; m_g1 := g |}.
Proof. intros Hall Hlo. exists xs. simpl. auto. Qed.

Lemma denote_seq code r1 r2 st mid st' :
  denote code r1 st mid -> denote code r2 mid st' -> denote code (r1 @@ r2) st st'.
Proof. intros H1 H2. exists mid. now split. Qed.

Lemma nonempty_length {A : Type} (l : list A) : l <> [] <-> 1 <= List.length l.
Proof. destruct l; simpl; split; intros; try congruence; lia. Qed.




(** ** Forced unwraps *)


Lemma space_not (c : char) x :
  isspace c = false -> isspace x = true -> (x =? c)%N = false.
Proof.
  intros Hc Hx. destruct (N.eqb_spec x c) as [->|]; [congruence | reflexivity].
Qed.







(** *** The line around an offset *)








Lemma no_newline_forallb s :
  existsb is_newline s = false <-> forallb (fun c => negb (is_newline c)) s = true.
Proof.
  induction s as [|c s IH]; simpl; [tauto|].
  rewrite orb_false_iff, andb_true_iff, IH, negb_true_iff. tauto.
Qed.




(** *** The comment test *)









(** ** Touch targets *)

Lemma digits_value_decimal ds : forall acc,
  forallb isdecimal ds = true -> exists n, digits_value ds acc = Some n.
Proof.
  induction ds as [|d ds IH]; intros acc H; simpl; [eauto|].
  simpl in H. apply andb_true_iff in H as [Hd Hds]. unfold isdecimal in Hd.
  destruct (digit_value d); [|discriminate]. now apply IH.
Qed.

(** On a non-empty run of decimal digits [int] returns a number, unless the
    run is longer than the conversion limit allows: then it raises
    ValueError. *)
Lemma py_int_digits (ds : pystr) :
  forallb isdecimal ds = true -> ds <> [] ->
  (int_refuses ds = false /\ exists n, py_int (Some ds) = inr n)
  \/ (int_refuses ds = true /\ py_int (Some ds) = inl ValueError).
Proof.
  intros Hds Hne. unfold py_int. destruct ds as [|d ds]; [congruence|].
  destruct (digits_value_decimal (d :: ds) 0 Hds) as [n ->].
  fold (int_refuses (d :: ds)).
  destruct (int_refuses (d :: ds)); [right | left]; eauto.
Qed.

(** A match of [touch_pattern]: [Button(], the rest of the line up to a
    closing parenthesis, blanks, an opening brace, any text up to a closing
    brace, any text up to [.frame(], the rest of the line up to [width:] or
    [height:], blanks, a non-empty run of digits, which is group 1, and a
    closing parenthesis. *)
Lemma touch_pattern_shape code p m :
  match_here touch_pattern code p (skipn p code) = Some m ->
  exists a ws b c d kw ws2 ds rest',
    skipn p code
    = py "Button(" ++ a ++ py ")" ++ ws ++ py "{" ++ b ++ py "}" ++ c
      ++ py ".frame(" ++ d ++ kw ++ py ":" ++ ws2 ++ ds ++ py ")" ++ rest'
    /\ existsb is_newline a = false /\ existsb is_newline d = false
    /\ forallb isspace ws = true /\ forallb isspace ws2 = true
    /\ (kw = py "width" \/ kw = py "height")
    /\ forallb isdecimal ds = true /\ ds <> []
    /\ group1 code m = Some ds.
Proof.
  intros H. apply match_here_sound in H as [st' [Hd ->]].
  unfold touch_pattern in Hd. cbn [denote] in Hd.
  destruct Hd as
    [s1 [[R1 [P1 G1]] [s2 [[a [R2 [Ha [_ [P2 G2]]]]] [s3 [[R3 [P3 G3]] [s4 [[ws [R4
    [Hws [_ [P4 G4]]]]] [s5 [[R5 [P5 G5]] [s6 [[b [R6 [Hb [_ [P6 G6]]]]] [s7 [[R7
    [P7 G7]] [s8 [[c [R8 [Hc [_ [P8 G8]]]]] [s9 [[R9 [P9 G9]] [s10 [[d [R10 [Hdd [_
    [P10 G10]]]]] [s11 [Hkw [s12 [[R12 [P12 G12]] [s13 [[ws2 [R13 [Hws2 [_ [P13
    G13]]]]] [s14 [[s15 [[ds [R15 [Hds [Hlen [P15 G15]]]]] [R14 [P14 G14]]]] [R16
    [P16 G16]]]]]]]]]]]]]]]]]]]]]]]]]]]]]].
  cbn [init_state m_rest m_pos] in R1, P1.
  assert (exists kw, (kw = py "width" \/ kw = py "height")
                     /\ m_rest s10 = kw ++ m_rest s11
                     /\ m_pos s11 = m_pos s10 + List.length kw)
    as [kw [Hkw' [R11 P11]]].
  { destruct Hkw as [[R [P _]]|[R [P _]]];
      [exists (py "width") | exists (py "height")]; auto. }
  exists a, ws, b, c, d, kw, ws2, ds, (m_rest st').
  assert (skipn p code
          = (py "Button(" ++ a ++ py ")" ++ ws ++ py "{" ++ b ++ py "}" ++ c
             ++ py ".frame(" ++ d ++ kw ++ py ":" ++ ws2)
            ++ ds ++ py ")" ++ m_rest st') as Hcode.
  { rewrite R1, R2, R3, R4, R5, R6, R7, R8, R9, R10, R11, R12, R13, R15,
      <- R14, R16.
    now rewrite <- !app_assoc. }
  split; [rewrite Hcode; now rewrite <- !app_assoc|].
  split; [now apply no_newline_forallb|]. split; [now apply no_newline_forallb|].
  split; [exact Hws|]. split; [exact Hws2|]. split; [exact Hkw'|].
  split; [exact Hds|]. split; [now apply nonempty_length|].
  unfold group1. cbn [span1]. rewrite G16, G14, P15. f_equal.
  apply slice_of_skipn with (t := py ")" ++ m_rest st').
  replace (m_pos s13)
    with (p + List.length (py "Button(" ++ a ++ py ")" ++ ws ++ py "{" ++ b
                           ++ py "}" ++ c ++ py ".frame(" ++ d ++ kw ++ py ":"
                           ++ ws2)).
  - now apply skipn_app_decompose.
  - rewrite P13, P12, P11, P10, P9, P8, P7, P6, P5, P4, P3, P2, P1.
    rewrite !length_app. lia.
Qed.

(** Every conversion [check_touch_target_sizes] makes is of a non-empty run
    of digits. *)
Lemma touch_match_group code m :
  In m (finditer touch_pattern code) ->
  exists ds, group1 code m = Some ds /\ forallb isdecimal ds = true /\ ds <> []
             /\ List.length ds <= List.length code.
Proof.
  intros Hin. apply finditer_sound in Hin as [_ Hm].
  apply touch_pattern_shape in Hm
    as (a & ws & b & c & d & kw & ws2 & ds & rest' & Hc & _ & _ & _ & _ & _
        & Hds & Hne & Hg).
  exists ds. repeat split; try assumption.
  apply (f_equal (@List.length char)) in Hc. rewrite length_skipn in Hc.
  rewrite !length_app in Hc. lia.
Qed.

Lemma touch_run_outcome code ms :
  (forall m, In m ms ->
     exists ds, group1 code m = Some ds /\ forallb isdecimal ds = true /\ ds <> []) ->
  (snd (touch_run code ms) = None \/ snd (touch_run code ms) = Some ValueError)
  /\ ((forall m ds, In m ms -> group1 code m = Some ds -> int_refuses ds = false) ->
      touch_run code ms = (flat_map (touch_report code) ms, None)).
Proof.
  induction ms as [|m ms IH]; intros Hg; simpl.
  - split; [now left | reflexivity].
  - destruct (Hg m (or_introl eq_refl)) as [ds [Hgm [Hds Hne]]].
    destruct IH as [IH1 IH2]; [intros m' Hm'; apply Hg; now right|].
    unfold touch_report at 1. rewrite Hgm.
    destruct (py_int_digits ds Hds Hne) as [[Hr [n ->]]|[Hr ->]]; simpl.
    + split; [exact IH1|]. intros Hall. rewrite IH2; [reflexivity|].
      intros m' ds' Hm'. apply Hall. now right.
    + split; [now right|]. intros Hall.
      rewrite (Hall m ds (or_introl eq_refl) Hgm) in Hr. discriminate.
Qed.

Lemma touch_run_raises code ms :
  (forall m, In m ms ->
     exists ds, group1 code m = Some ds /\ forallb isdecimal ds = true /\ ds <> []) ->
  (exists m ds, In m ms /\ group1 code m = Some ds /\ int_refuses ds = true) ->
  snd (touch_run code ms) = Some ValueError.
Proof.
  induction ms as [|m ms IH]; intros Hg [m' [ds' [Hin [Hg' Hr']]]];
    [contradiction|]. simpl.
  destruct (Hg m (or_introl eq_refl)) as [ds [Hgm [Hds Hne]]]. rewrite Hgm.
  destruct (py_int_digits ds Hds Hne) as [[Hr [n ->]]|[Hr ->]]; [|reflexivity].
  simpl. apply IH; [intros m0 Hm0; apply Hg; now right|].
  destruct Hin as [<-|Hin]; [congruence|]. eauto.
Qed.

Lemma touch_literals_dec code ms :
  (forall m ds, In m ms -> group1 code m = Some ds -> int_refuses ds = false)
  \/ (exists m ds, In m ms /\ group1 code m = Some ds /\ int_refuses ds = true).
Proof.
  induction ms as [|m ms [IH|[m' [ds' [H1 [H2 H3]]]]]].
  - left. intros m ds [].
  - destruct (group1 code m) as [ds|] eqn:Hg.
    + destruct (int_refuses ds) eqn:Hr.
      * right. exists m, ds. split; [now left | now split].
      * left. intros m0 ds0 [<-|Hin] Hg0; [congruence | now apply (IH m0)].
    + left. intros m0 ds0 [<-|Hin] Hg0; [congruence | now apply (IH m0)].
  - right. exists m', ds'. split; [now right | now split].
Qed.

(** The analysis of a text ends with its result when [int] accepts every
    touch-target literal, and with ValueError otherwise. *)
Lemma analysis_cases code h :
  ((forall m ds, In m (finditer touch_pattern code) ->
                 group1 code m = Some ds -> int_refuses ds = false)
   /\ fst (analyze_swift_code code h) = inr (make_result (all_violations code)))
  \/ ((exists m ds, In m (finditer touch_pattern code)
                    /\ group1 code m = Some ds /\ int_refuses ds = true)
      /\ fst (analyze_swift_code code h) = inl ValueError).
Proof.
  assert (forall m, In m (finditer touch_pattern code) ->
            exists ds, group1 code m = Some ds /\ forallb isdecimal ds = true
                       /\ ds <> []) as Hgroups.
  { intros m Hm. destruct (touch_match_group code m Hm) as [ds [H1 [H2 [H3 _]]]].
    eauto. }
  rewrite analyze_swift_code_unfold. unfold touch_outcome.
  destruct (touch_literals_dec code (finditer touch_pattern code)) as [Hall|Hex].
  - left. split; [exact Hall|].
    destruct (touch_run_outcome code _ Hgroups) as [_ Hok].
    now rewrite (Hok Hall).
  - right. split; [exact Hex|].
    now rewrite (touch_run_raises code _ Hgroups Hex).
Qed.

Lemma analysis_returns code h :
  literals_accepted code ->
  fst (analyze_swift_code code h) = inr (make_result (all_violations code)).
Proof.
  intros Hall. destruct (analysis_cases code h) as [[_ H]|[[m [ds [Hm [Hg Hr]]]] _]];
    [exact H|].
  rewrite (Hall m ds Hm Hg) in Hr. discriminate.
Qed.

Lemma short_text_accepted code :
  List.length code <= 640 -> literals_accepted code.
Proof.
  intros Hlen m ds Hm Hg.
  destruct (touch_match_group code m Hm) as [ds' [Hg' [_ [_ Hle]]]].
  assert (ds' = ds) by congruence. subst ds'.
  unfold int_refuses.
  replace (640 <? List.length ds) with false
    by (symmetry; apply Nat.ltb_ge; lia).
  reflexivity.
Qed.



(** ** Hardcoded colors: one call, two warnings *)






(** ** Termination and exceptions *)

Lemma flat_map_nil {A B : Type} (f : A -> list B) l :
  (forall x, In x l -> f x = []) -> flat_map f l = [].
Proof.
  intros H. induction l as [|x l IH]; [reflexivity|]. simpl.
  rewrite H by now left. apply IH. intros y Hy. apply H. now right.
Qed.

Lemma no_match_no_violation {A : Type} r code (f : pymatch -> A) :
  ~ occurs r code -> map f (finditer r code) = [].
Proof. intros H. now rewrite (finditer_absent r code H). Qed.

(** C2, amended.  A call of [analyze_swift_code] always terminates, with a
    result or with ValueError, and with no other exception.  It returns a
    result whenever [int] accepts the digits of every touch-target match --
    runs of at most 640 digits always, longer runs up to [int_max_str_digits]
    -- and raises ValueError when it refuses those of one; it returns a
    result for every text of at most 640 characters, the empty text and
    texts with unmatched delimiters among them.  A rule none of whose
    patterns occurs in the text contributes no violation.  The
    balanced-delimiter loop never fails and runs at most once per character
    from its start offset to the end of the text. *)
Theorem analyze_outcome code h :
  (fst (analyze_swift_code code h) = inr (make_result (all_violations code))
   \/ fst (analyze_swift_code code h) = inl ValueError)
  /\ ((forall m ds, In m (finditer touch_pattern code) ->
                    group1 code m = Some ds -> int_refuses ds = false) ->
      fst (analyze_swift_code code h) = inr (make_result (all_violations code)))
  /\ ((exists m ds, In m (finditer touch_pattern code)
                    /\ group1 code m = Some ds /\ int_refuses ds = true) ->
      fst (analyze_swift_code code h) = inl ValueError)
  /\ (List.length code <= 640 ->
      fst (analyze_swift_code code h) = inr (make_result (all_violations code)))
  /\ ((forall pd, In pd frame_patterns -> ~ occurs (fst pd) code) ->
      frame_violations code = [])
  /\ ((forall pattern, In pattern color_patterns -> ~ occurs pattern code) ->
      color_violations code = [])
  /\ (~ occurs font_pattern code -> font_violations code = [])
  /\ (~ occurs force_unwrap_pattern code -> unwrap_violations code = [])
  /\ (~ occurs touch_pattern code -> touch_outcome code = ([], None))
  /\ (~ occurs viewmodel_pattern code -> viewmodel_violations code = [])
  /\ (~ occurs button_open_pattern code -> a11y_violations code = [])
  /\ (forall start_,
        exists n, n <= List.length code - start_
          /\ brace_loop code (seq start_ (List.length code - start_)) 0%Z false
               start_ 0
             = inr (button_end_of code start_, n))
  /\ fst (analyze_swift_code [] h) = inr (make_result [])
  /\ fst (analyze_swift_code (py "Button(x) {{ } func f( {") h)
     = inr (make_result []).
Proof.
  assert (forall m, In m (finditer touch_pattern code) ->
            exists ds, group1 code m = Some ds /\ forallb isdecimal ds = true
                       /\ ds <> []) as Hgroups.
  { intros m Hm. destruct (touch_match_group code m Hm) as [ds [H1 [H2 [H3 _]]]].
    eauto. }
  destruct (touch_run_outcome code (finditer touch_pattern code) Hgroups)
    as [Hexn Hok].
  fold (touch_outcome code) in Hexn, Hok.
  assert ((forall m ds, In m (finditer touch_pattern code) ->
                        group1 code m = Some ds -> int_refuses ds = false) ->
          fst (analyze_swift_code code h) = inr (make_result (all_violations code)))
    as Hreturns.
  { intros Hall. rewrite analyze_swift_code_unfold, (Hok Hall). reflexivity. }
  split; [|split; [exact Hreturns|split; [|split]]].
  - rewrite analyze_swift_code_unfold.
    destruct Hexn as [-> | ->]; [now left | now right].
  - intros Hex. rewrite analyze_swift_code_unfold. unfold touch_outcome.
    now rewrite (touch_run_raises code _ Hgroups Hex).
  - intros Hlen. apply Hreturns. intros m ds Hm Hg.
    destruct (touch_match_group code m Hm) as [ds' [Hg' [_ [_ Hle]]]].
    assert (ds' = ds) by congruence. subst ds'.
    unfold int_refuses.
    replace (640 <? List.length ds) with false
      by (symmetry; apply Nat.ltb_ge; lia).
    reflexivity.
  - split.
    { intros H. apply flat_map_nil. intros pd Hpd.
      apply no_match_no_violation. now apply H. }
    split.
    { intros H. apply flat_map_nil. intros pattern Hp.
      apply no_match_no_violation. now apply H. }
    split; [apply no_match_no_violation|].
    split.
    { intros H. unfold unwrap_violations. now rewrite (finditer_absent _ _ H). }
    split.
    { intros H. unfold touch_outcome. now rewrite (finditer_absent _ _ H). }
    split.
    { intros H. unfold viewmodel_violations.
      destruct (is_some (search viewmodel_pattern code)) eqn:Hs; [|reflexivity].
      exfalso. apply H. now apply search_occurs. }
    split.
    { intros H. unfold a11y_violations. now rewrite (finditer_absent _ _ H). }
    split; [intros start_; apply brace_loop_button_end|].
    split; rewrite analyze_swift_code_unfold; vm_compute; reflexivity.
Qed.

(** ** The balanced-delimiter scan *)

Lemma firstn_S_nth {A : Type} (l : list A) n c :
  nth_error l n = Some c -> firstn (S n) l = firstn n l ++ [c].
Proof.
  revert n. induction l as [|x l IH]; intros [|n] H; try discriminate.
  - inversion H. reflexivity.
  - simpl in *. now rewrite (IH n H).
Qed.

Lemma nth_error_skipn {A : Type} (l : list A) a n :
  nth_error (skipn a l) n = nth_error l (a + n).
Proof.
  revert l. induction a as [|a IH]; intros l; [reflexivity|].
  destruct l; simpl; [now destruct n | apply IH].
Qed.

Lemma slice_snoc code start_ i c :
  start_ <= i -> nth_error code i = Some c ->
  slice code start_ (S i) = slice code start_ i ++ [c].
Proof.
  intros Hle Hn. unfold slice.
  replace (S i - start_) with (S (i - start_)) by lia.
  apply firstn_S_nth. rewrite nth_error_skipn.
  now replace (start_ + (i - start_)) with i by lia.
Qed.

Lemma depth_app a b : depth (a ++ b) = (depth a + depth b)%Z.
Proof. induction a as [|c a IH]; simpl; [reflexivity|]. rewrite IH. lia. Qed.

Lemma has_open_snoc a c : has_open (a ++ [c]) = has_open a || (c =? chr "{")%N.
Proof. unfold has_open. rewrite existsb_app. simpl. now rewrite orb_false_r. Qed.

(** The loop state at offset [i] is the depth and the opening-brace flag of
    the text scanned so far; where it stops, the span closes. *)
Lemma scan_braces_closes code start_ : forall rest i bc inb k,
  start_ <= i ->
  skipn i code = rest ->
  bc = depth (slice code start_ i) ->
  inb = has_open (slice code start_ i) ->
  scan_braces rest i bc inb = Some k ->
  i <= k /\ closes_at code start_ k.
Proof.
  induction rest as [|c rest IH]; intros i bc inb k Hle Hs Hbc Hinb Hk;
    cbn [scan_braces] in Hk; [discriminate|].
  destruct (skipn_cons_nth _ _ _ _ Hs) as [Hn Hs'].
  pose proof (slice_snoc code start_ i c Hle Hn) as Hsn.
  assert (forall bc' inb',
            bc' = (bc + depth [c])%Z -> inb' = inb || (c =? chr "{")%N ->
            scan_braces rest (S i) bc' inb' = Some k ->
            i <= k /\ closes_at code start_ k) as Hnext.
  { intros bc' inb' Hb Hi Hk'.
    destruct (IH (S i) bc' inb' k) as [H1 H2]; try assumption; try lia.
    - rewrite Hsn, depth_app. lia.
    - rewrite Hsn, has_open_snoc. congruence.
    - split; [lia | exact H2]. }
  destruct (c =? chr "{")%N eqn:Ho.
  - apply (Hnext _ _) in Hk; [exact Hk | cbn [depth]; rewrite Ho; lia |].
    now rewrite orb_true_r.
  - destruct (c =? chr "}")%N eqn:Hc.
    + destruct (inb && (bc - 1 =? 0)%Z) eqn:Hstop.
      * injection Hk as <-. split; [lia|].
        apply andb_true_iff in Hstop as [Hi Hz]. apply Z.eqb_eq in Hz.
        apply N.eqb_eq in Hc. subst c.
        repeat split; [exact Hn | congruence |].
        rewrite Hsn, depth_app. simpl. lia.
      * apply (Hnext _ _) in Hk; [exact Hk | cbn [depth]; rewrite Ho, Hc; lia |].
        now rewrite orb_false_r.
    + apply (Hnext _ _) in Hk; [exact Hk | cbn [depth]; rewrite Ho, Hc; lia |].
      now rewrite orb_false_r.
Qed.

Lemma slice_empty code a : slice code a a = [].
Proof. unfold slice. now rewrite Nat.sub_diag. Qed.

Lemma unbalanced_scan code start_ :
  unbalanced code start_ -> scan_braces (skipn start_ code) start_ 0%Z false = None.
Proof.
  intros Hu. destruct (scan_braces _ _ _ _) as [k|] eqn:Hk; [|reflexivity].
  apply scan_braces_closes with (code := code) (start_ := start_) in Hk;
    try reflexivity; try lia; try (now rewrite slice_empty).
  destruct Hk as [Hle Hc]. now apply Hu in Hc.
Qed.

(** C5, amended.  When the text ends before the depth returns to zero, the
    loop runs to the end of the text without failing and leaves [button_end]
    at the start offset: the span [start .. button_end] is empty, and the
    snippet examined is the text from the start offset on cut to 200
    characters, not the text up to its end. *)
Theorem unbalanced_span code start_ :
  unbalanced code start_ ->
  (exists n, n <= List.length code - start_
     /\ brace_loop code (seq start_ (List.length code - start_)) 0%Z false start_ 0
        = inr (start_, n))
  /\ button_end_of code start_ = start_
  /\ snippet_of code start_ = firstn 200 (skipn start_ code).
Proof.
  intros Hu. apply unbalanced_scan in Hu.
  assert (button_end_of code start_ = start_) as Hbe.
  { unfold button_end_of. now rewrite Hu. }
  split; [|split; [exact Hbe|]].
  - destruct (brace_loop_button_end code start_) as [n [Hle H]].
    exists n. split; [exact Hle|]. now rewrite Hbe in H.
  - unfold snippet_of, slice. rewrite Hbe.
    destruct (Nat.le_ge_cases (start_ + 200) (List.length code)) as [Hl|Hl].
    + rewrite Nat.min_l by exact Hl. f_equal. lia.
    + rewrite Nat.min_r by exact Hl.
      rewrite !firstn_all2; [reflexivity | |]; rewrite length_skipn; lia.
Qed.

(** * Further properties *)

(** ** The instance keeps its violations *)

(** X1.  [SwiftAnalyzer.analyze] appends to the list the instance holds and
    returns that list: run on an instance that already holds violations it
    returns them followed by the violations of the text, so a second run on
    the instance a first run left returns every violation twice. *)
Theorem analyze_twice_on_instance self vs self' :
  analyze self = (inr vs, self') ->
  vs = self_violations self ++ all_violations (self_code self)
  /\ self_code self' = self_code self
  /\ self_violations self' = vs
  /\ fst (analyze self') = inr (vs ++ all_violations (self_code self)).
Proof.
  rewrite analyze_unfold.
  destruct (snd (touch_outcome (self_code self))) eqn:Ht; [discriminate|].
  intros H. injection H as <- <-.
  repeat split. rewrite analyze_unfold. cbn [extend self_code self_violations].
  rewrite Ht. reflexivity.
Qed.

(** ** Texts without any trigger *)

(** X2.  When none of the patterns the rules report occurs in the text, the
    analysis returns a result with no violation and a summary of zeros, and
    does not raise. *)
Theorem no_trigger_no_violation code h :
  (forall r, In r trigger_patterns -> ~ occurs r code) ->
  fst (analyze_swift_code code h)
  = inr {| status := py "success"; result_violations := [];
           summary := {| total := 0; errors := 0; warnings := 0 |} |}.
Proof.
  intros H.
  assert (forall r, In r trigger_patterns -> finditer r code = []) as Hf
    by (intros r Hr; apply finditer_absent; now apply H).
  assert (forall r, In r trigger_patterns -> search r code = None) as Hs
    by (intros r Hr; unfold search; now rewrite (Hf r Hr)).
  rewrite analyze_swift_code_unfold.
  unfold all_violations, rules_before_touch, rules_after_touch, touch_outcome,
    frame_violations, color_violations, font_violations, unwrap_violations,
    viewmodel_violations, a11y_violations, frame_patterns, color_patterns.
  cbn [flat_map fst snd].
  rewrite !Hf by (unfold trigger_patterns, frame_patterns, color_patterns;
                  cbn [map fst app In]; tauto).
  rewrite (Hs viewmodel_pattern)
    by (unfold trigger_patterns, frame_patterns, color_patterns;
        cbn [map fst app In]; tauto).
  reflexivity.
Qed.

(** ** Line numbers *)

Lemma count_firstn_le s c n : count (firstn n s) c <= count s c.
Proof.
  rewrite <- (firstn_skipn n s) at 2. rewrite count_app. lia.
Qed.

Lemma line_number_bounds code p : 1 <= line_number code p <= line_count code.
Proof.
  unfold line_number, line_count, slice. rewrite skipn_O, Nat.sub_0_r.
  pose proof (count_firstn_le code newline p). lia.
Qed.

Lemma line_number_mono code p q :
  p <= q -> line_number code p <= line_number code q.
Proof.
  intros Hpq. unfold line_number, slice. rewrite !skipn_O, !Nat.sub_0_r.
  replace (firstn p code) with (firstn p (firstn q code))
    by (rewrite firstn_firstn; f_equal; lia).
  pose proof (count_firstn_le (firstn q code) newline p). lia.
Qed.

Lemma Forall_map_fun {A : Type} (P : Violation -> Prop) (f : A -> Violation) xs :
  (forall x, P (f x)) -> Forall P (map f xs).
Proof.
  intros H. apply Forall_forall. intros v Hv.
  apply in_map_iff in Hv as [x [<- _]]. apply H.
Qed.

Lemma occurrence_line_ok code sev name msg p :
  name <> py "missing_viewmodel_state" ->
  line_ok code (mk_violation sev name msg (Some (line_number code p))).
Proof.
  intros Hn. unfold line_ok. cbn [line rule mk_violation].
  split; [apply line_number_bounds | exact Hn].
Qed.

(** X3.  Every violation of a result carries a line between 1 and the number
    of lines of the text, except the violations of missing_viewmodel_state,
    which are the only ones without a line. *)
Theorem result_lines code h r :
  fst (analyze_swift_code code h) = inr r ->
  Forall (line_ok code) (result_violations r).
Proof.
  rewrite analyze_swift_code_unfold.
  destruct (snd (touch_outcome code)); [discriminate|].
  intros H. injection H as <-. cbn [make_result result_violations].
  unfold all_violations, rules_before_touch, rules_after_touch.
  rewrite !Forall_app.
  assert (Forall (line_ok code) (fst (touch_outcome code))) as Ht.
  { unfold touch_outcome. induction (finditer touch_pattern code) as [|m ms IH];
      simpl; [constructor|].
    destruct (py_int (group1 code m)) as [e|size]; simpl; [constructor|].
    destruct (size <? 44)%N; [|exact IH].
    constructor; [|exact IH]. apply occurrence_line_ok. discriminate. }
  repeat split; try exact Ht.
  - apply Forall_flat_map, Forall_forall. intros pd _. apply Forall_map_fun.
    intros m. apply occurrence_line_ok. discriminate.
  - apply Forall_flat_map, Forall_forall. intros pd _. apply Forall_map_fun.
    intros m. apply occurrence_line_ok. discriminate.
  - apply Forall_map_fun. intros m. apply occurrence_line_ok. discriminate.
  - apply Forall_map_fun. intros m. apply occurrence_line_ok. discriminate.
  - unfold viewmodel_violations. destruct (_ && _); [|constructor].
    constructor; [reflexivity | constructor].
  - apply Forall_map_fun. intros m. apply occurrence_line_ok. discriminate.
Qed.

Lemma lines_follow_offsets code (ts : list report) :
  ascending (map fst ts) ->
  Forall (fun t : report => line (snd t) = option_map (line_number code) (fst t)) ts ->
  StronglySorted line_le (map (fun t : report => line (snd t)) ts).
Proof.
  unfold ascending. induction ts as [|t ts IH]; intros Hs Hl; simpl; [constructor|].
  simpl in Hs. apply StronglySorted_inv in Hs as [Hs Hall].
  apply Forall_cons_iff in Hl as [Ht Hl].
  constructor; [now apply IH|].
  apply Forall_forall. intros o Ho. apply in_map_iff in Ho as [t' [<- Hin]].
  rewrite Forall_forall in Hall, Hl.
  specialize (Hall (fst t') (in_map fst _ _ Hin)). rewrite Ht, (Hl t' Hin).
  destruct (fst t) as [x|], (fst t') as [y|]; simpl in *; try contradiction.
  apply line_number_mono. lia.
Qed.

Lemma reports_of_lines code f ms :
  (forall m, line (f m) = Some (line_number code (start m))) ->
  Forall (fun t : report => line (snd t) = option_map (line_number code) (fst t))
    (reports_of f ms).
Proof.
  intros H. apply Forall_forall. intros t Ht.
  apply in_map_iff in Ht as [m [<- _]]. simpl. apply H.
Qed.

Lemma touch_reports_lines code ms :
  Forall (fun t : report => line (snd t) = option_map (line_number code) (fst t))
    (touch_reports code ms).
Proof.
  induction ms as [|m ms IH]; simpl; [constructor|].
  destruct (py_int (group1 code m)); [constructor|].
  apply Forall_app. split; [|exact IH].
  destruct (_ <? _)%N; repeat constructor.
Qed.

(** X4.  The violations of a result are the segments of the scans one after
    the other, and inside each segment the line numbers never decrease: a
    scan reports its matches from the top of the text to the bottom. *)
Theorem segment_lines code h r :
  fst (analyze_swift_code code h) = inr r ->
  result_violations r = flat_map (fun seg => map snd (snd seg)) (segments code)
  /\ Forall (fun seg =>
              StronglySorted line_le (map (fun t : report => line (snd t)) (snd seg)))
       (segments code).
Proof.
  rewrite analyze_swift_code_unfold.
  destruct (snd (touch_outcome code)); [discriminate|].
  intros H. injection H as <-. cbn [make_result result_violations].
  split; [now rewrite segments_violations|].
  unfold segments. simpl.
  repeat (apply Forall_cons; [|]); try apply Forall_nil; cbn [snd];
    try (apply (lines_follow_offsets code);
         [ first [ apply reports_of_ascending;
                   first [ apply finditer_sorted
                         | apply StronglySorted_filter, finditer_sorted ]
                 | apply touch_reports_ascending, finditer_sorted ]
         | first [ apply reports_of_lines; intros m; reflexivity
                 | apply touch_reports_lines ] ]).
  unfold viewmodel_violations. destruct (_ && _); repeat constructor.
Qed.

(** ** The summary, rule by rule *)

Lemma count_severity_app sev a b :
  count_severity sev (a ++ b) = count_severity sev a + count_severity sev b.
Proof. unfold count_severity. now rewrite filter_app, length_app. Qed.

Lemma count_severity_same sev l :
  Forall (fun v => severity v = sev) l -> count_severity sev l = List.length l.
Proof.
  unfold count_severity. induction 1 as [|v l Hv _ IH]; simpl; [reflexivity|].
  rewrite Hv. replace (str_eqb sev sev) with true by (symmetry; now apply str_eqb_eq).
  simpl. now rewrite IH.
Qed.

Lemma count_severity_other sev sev' l :
  Forall (fun v => severity v = sev') l -> str_eqb sev' sev = false ->
  count_severity sev l = 0.
Proof.
  unfold count_severity. intros Hall Hne.
  induction Hall as [|v l Hv _ IH]; simpl; [reflexivity|]. now rewrite Hv, Hne.
Qed.

Lemma rule_severities code :
  Forall (fun v => severity v = py "warning") (frame_violations code)
  /\ Forall (fun v => severity v = py "warning") (color_violations code)
  /\ Forall (fun v => severity v = py "warning") (font_violations code)
  /\ Forall (fun v => severity v = py "error") (unwrap_violations code)
  /\ Forall (fun v => severity v = py "error") (fst (touch_outcome code))
  /\ Forall (fun v => severity v = py "warning") (viewmodel_violations code)
  /\ Forall (fun v => severity v = py "warning") (a11y_violations code).
Proof.
  repeat split.
  - apply Forall_flat_map, Forall_forall. intros pd _.
    apply Forall_map_fun. reflexivity.
  - apply Forall_flat_map, Forall_forall. intros pd _.
    apply Forall_map_fun. reflexivity.
  - apply Forall_map_fun. reflexivity.
  - apply Forall_map_fun. reflexivity.
  - unfold touch_outcome. induction (finditer touch_pattern code) as [|m ms IH];
      simpl; [constructor|].
    destruct (py_int (group1 code m)) as [e|size]; simpl; [constructor|].
    destruct (size <? 44)%N; [constructor; [reflexivity | exact IH] | exact IH].
  - unfold viewmodel_violations. destruct (_ && _); [|constructor].
    constructor; [reflexivity | constructor].
  - apply Forall_map_fun. reflexivity.
Qed.

(** X5.  The severity of a violation is fixed by its rule: the errors of a
    summary are the force_unwrapping and touch_target_too_small violations of
    the result, and its warnings are the violations of the five other
    rules. *)
Theorem summary_by_rule code h r :
  fst (analyze_swift_code code h) = inr r ->
  errors (summary r)
  = count_rule (py "force_unwrapping") (result_violations r)
    + count_rule (py "touch_target_too_small") (result_violations r)
  /\ warnings (summary r)
     = count_rule (py "hardcoded_frame_size") (result_violations r)
       + count_rule (py "hardcoded_color") (result_violations r)
       + count_rule (py "hardcoded_font_size") (result_violations r)
       + count_rule (py "missing_viewmodel_state") (result_violations r)
       + count_rule (py "missing_accessibility_label") (result_violations r).
Proof.
  intros H. unfold count_rule.
  destruct (result_by_rule code h r H) as (-> & -> & -> & -> & E5 & -> & ->).
  rewrite E5. clear E5. revert H. rewrite analyze_swift_code_unfold.
  destruct (snd (touch_outcome code)) eqn:Hsnd; [discriminate|].
  intros H. injection H as <-. cbn [make_result summary errors warnings].
  rewrite <- (touch_run_returns code _ Hsnd). fold (touch_outcome code).
  destruct (rule_severities code) as [H1 [H2 [H3 [H4 [H5 [H6 H7]]]]]].
  unfold all_violations, rules_before_touch, rules_after_touch.
  rewrite !count_severity_app.
  rewrite (count_severity_same _ _ H4), (count_severity_same _ _ H5),
    (count_severity_same _ _ H1), (count_severity_same _ _ H2),
    (count_severity_same _ _ H3), (count_severity_same _ _ H6),
    (count_severity_same _ _ H7).
  rewrite (count_severity_other _ _ _ H1), (count_severity_other _ _ _ H2),
    (count_severity_other _ _ _ H3), (count_severity_other _ _ _ H6),
    (count_severity_other _ _ _ H7), (count_severity_other _ _ _ H4),
    (count_severity_other _ _ _ H5) by reflexivity.
  lia.
Qed.

(** ** The closing brace of a control *)

(** Where some closing brace closes the span, the scan stops at or before
    it. *)
Lemma scan_braces_finds code start_ k : forall rest i bc inb,
  start_ <= i ->
  skipn i code = rest ->
  bc = depth (slice code start_ i) ->
  inb = has_open (slice code start_ i) ->
  i <= k -> closes_at code start_ k ->
  exists k', scan_braces rest i bc inb = Some k' /\ k' <= k.
Proof.
  induction rest as [|c rest IH]; intros i bc inb Hle Hs Hbc Hinb Hik Hk.
  - exfalso. destruct Hk as [Hn _].
    assert (k < List.length code) by (apply nth_error_Some; congruence).
    apply (f_equal (@List.length char)) in Hs. rewrite length_skipn in Hs.
    simpl in Hs. lia.
  - destruct (skipn_cons_nth _ _ _ _ Hs) as [Hn Hs'].
    pose proof (slice_snoc code start_ i c Hle Hn) as Hsn.
    assert (i = k -> c = chr "}" /\ inb = true /\ (bc - 1 = 0)%Z) as Hat.
    { intros ->. destruct Hk as [Hn' [Ho Hd]].
      assert (c = chr "}") by congruence. subst c.
      repeat split; [congruence|].
      rewrite Hsn, depth_app in Hd. simpl in Hd. lia. }
    assert (forall bc' inb',
              i <> k ->
              bc' = (bc + depth [c])%Z -> inb' = inb || (c =? chr "{")%N ->
              exists k', scan_braces rest (S i) bc' inb' = Some k' /\ k' <= k)
      as Hnext.
    { intros bc' inb' Hne Hb Hi. apply IH; try assumption; try lia.
      - rewrite Hsn, depth_app. lia.
      - rewrite Hsn, has_open_snoc. congruence. }
    cbn [scan_braces]. destruct (c =? chr "{")%N eqn:Ho.
    + apply Hnext.
      * intros He. destruct (Hat He) as [-> _]. discriminate.
      * cbn [depth]. rewrite Ho. lia.
      * now rewrite orb_true_r.
    + destruct (c =? chr "}")%N eqn:Hc.
      * destruct (inb && (bc - 1 =? 0)%Z) eqn:Hstop; [exists i; now split|].
        apply Hnext.
        -- intros He. destruct (Hat He) as [_ [Hi Hz]].
           rewrite Hi in Hstop. apply Z.eqb_eq in Hz. rewrite Hz in Hstop.
           discriminate.
        -- cbn [depth]. rewrite Ho, Hc. lia.
        -- now rewrite orb_false_r.
      * apply Hnext.
        -- intros He. destruct (Hat He) as [-> _]. discriminate.
        -- cbn [depth]. rewrite Ho, Hc. lia.
        -- now rewrite orb_false_r.
Qed.

(** X6.  When a closing brace closes the span that starts at the control --
    an opening brace came before it and the depth is back to zero with it --
    the loop of [check_accessibility_labels] ends with [button_end] at the
    offset [k] of the first such brace, so the snippet the method examines
    for that control is [code[start : min(k + 200, len(code))]]: the method
    appends one missing_accessibility_label warning per control whose snippet
    holds [Image(] and no [.accessibilityLabel], and for this control the
    test is made on that slice. *)
Theorem first_closing_brace code start_ k :
  start_ <= k ->
  closes_at code start_ k ->
  (forall j, start_ <= j -> j < k -> ~ closes_at code start_ j) ->
  (exists n, n <= List.length code - start_
     /\ brace_loop code (seq start_ (List.length code - start_)) 0%Z false start_ 0
        = inr (k, n))
  /\ button_end_of code start_ = k
  /\ snippet_of code start_ = slice code start_ (Nat.min (k + 200) (List.length code))
  /\ appends check_accessibility_labels code
       (map (a11y_violation code)
          (filter (lacks_label code) (finditer button_open_pattern code)))
  /\ (forall m,
        start m = start_ ->
        lacks_label code m
        = contains (py "Image(")
            (slice code start_ (Nat.min (k + 200) (List.length code)))
          && negb (contains (py ".accessibilityLabel")
                     (slice code start_ (Nat.min (k + 200) (List.length code))))).
Proof.
  intros Hle Hk Hfirst.
  assert (button_end_of code start_ = k) as Hbe.
  { unfold button_end_of.
    destruct (scan_braces_finds code start_ k (skipn start_ code) start_ 0%Z false)
      as [k' [Hscan Hk']]; try reflexivity; try lia; try assumption;
      try (now rewrite slice_empty).
    rewrite Hscan.
    apply scan_braces_closes with (code := code) (start_ := start_) in Hscan;
      try reflexivity; try lia; try (now rewrite slice_empty).
    destruct Hscan as [Hge Hc].
    destruct (Nat.eq_dec k' k) as [->|Hne]; [reflexivity|].
    exfalso. apply (Hfirst k'); [exact Hge | lia | exact Hc]. }
  split.
  { destruct (brace_loop_button_end code start_) as [n [Hn Hloop]].
    exists n. split; [exact Hn|]. now rewrite <- Hbe. }
  split; [exact Hbe|].
  split; [unfold snippet_of; now rewrite Hbe|].
  split; [apply check_a11y_appends|].
  intros m Hm. unfold lacks_label, snippet_of. now rewrite Hm, Hbe.
Qed.

(** ** The window of the accessibility check *)

Lemma contains_iff sub s :
  contains sub s = true <-> exists j, starts_with sub (skipn j s) = true.
Proof.
  unfold contains, find. cbn [Nat.leb skipn].
  assert (forall s i, find_from sub s i = (-1)%Z
                      <-> forall j, starts_with sub (skipn j s) = false) as H.
  { clear s. induction s as [|c s IH]; intros i; cbn [find_from].
    - destruct (starts_with sub []) eqn:H0; split.
      + lia.
      + intros Hall. specialize (Hall 0). simpl in Hall. congruence.
      + intros _ j. now rewrite skipn_nil.
      + reflexivity.
    - destruct (starts_with sub (c :: s)) eqn:H0; split.
      + lia.
      + intros Hall. specialize (Hall 0). simpl in Hall. congruence.
      + intros Hf [|j]; [exact H0|]. simpl. now apply (IH (S i)).
      + intros Hall. apply IH. intros j. exact (Hall (S j)). }
  split.
  - intros Hc. apply negb_true_iff, Z.eqb_neq in Hc.
    destruct (existsb (fun j => starts_with sub (skipn j s)) (seq 0 (S (List.length s))))
      eqn:He.
    + apply existsb_exists in He as [j [_ Hj]]. eauto.
    + exfalso. apply Hc, H. intros j.
      destruct (Nat.le_gt_cases j (List.length s)) as [Hle|Hgt].
      * destruct (starts_with sub (skipn j s)) eqn:Hj; [|reflexivity].
        assert (existsb (fun j => starts_with sub (skipn j s))
                  (seq 0 (S (List.length s))) = true) as Ht; [|congruence].
        apply existsb_exists. exists j. split; [apply in_seq; lia | exact Hj].
      * rewrite skipn_all2 by lia.
        rewrite <- (skipn_all s).
        destruct (starts_with sub (skipn (List.length s) s)) eqn:Hj; [|reflexivity].
        assert (existsb (fun j => starts_with sub (skipn j s))
                  (seq 0 (S (List.length s))) = true) as Ht; [|congruence].
        apply existsb_exists. exists (List.length s).
        split; [apply in_seq; lia | exact Hj].
  - intros [j Hj]. apply negb_true_iff, Z.eqb_neq. intros Hf.
    rewrite (proj1 (H s 0) Hf j) in Hj. discriminate.
Qed.

Lemma starts_with_firstn sub : forall n t,
  starts_with sub (firstn n t) = (List.length sub <=? n) && starts_with sub t.
Proof.
  induction sub as [|a sub IH]; intros n t; [reflexivity|].
  destruct n as [|n]; [reflexivity|].
  destruct t as [|x t]; cbn [firstn starts_with List.length].
  - now rewrite andb_false_r.
  - rewrite IH. cbn [Nat.leb].
    destruct (a =? x)%N, (List.length sub <=? n); reflexivity.
Qed.

(** A non-empty text stands in a slice exactly when it stands in the whole
    text inside the bounds of the slice. *)
Lemma contains_slice sub code a b :
  sub <> [] ->
  contains sub (slice code a b) = true <-> stands_within sub code a b.
Proof.
  intros Hne. rewrite contains_iff. unfold stands_within, stands_at, slice.
  assert (1 <= List.length sub) as Hlen by now apply nonempty_length.
  split.
  - intros [j Hj]. rewrite skipn_firstn_comm, skipn_skipn, starts_with_firstn in Hj.
    apply andb_true_iff in Hj as [Hl Hs]. apply Nat.leb_le in Hl.
    exists (j + a). repeat split; [lia | lia | exact Hs].
  - intros [i [Hlo [Hhi Hs]]]. exists (i - a).
    rewrite skipn_firstn_comm, skipn_skipn, starts_with_firstn.
    replace (i - a + a) with i by lia. rewrite Hs, andb_true_r.
    apply Nat.leb_le. lia.
Qed.

Lemma stands_at_inside sub code i :
  sub <> [] -> stands_at sub code i -> i + List.length sub <= List.length code.
Proof.
  unfold stands_at. intros Hne H. apply nonempty_length in Hne.
  apply starts_with_app in H.
  apply (f_equal (@List.length char)) in H.
  rewrite length_app, !length_skipn in H. lia.
Qed.

(** X7.  [check_accessibility_labels] appends one
    missing_accessibility_label warning for each [Button(] occurrence that
    lacks a label, and never raises; these warnings are the
    missing_accessibility_label violations of the result, which is returned
    whenever [int] accepts every touch-target integer.  An occurrence at
    offset [start] with closing brace found at offset [button_end] lacks a
    label exactly when [Image(] stands at some offset [i] with [start <= i]
    and [i + 6 <= button_end + 200], that is wholly inside
    [code[start : button_end + 200]], and [.accessibilityLabel] stands at no
    offset [i] with [start <= i] and [i + 19 <= button_end + 200].  An image
    or a label whose last character is at offset [button_end + 200] or later
    is not seen.  A text without [Image(] gets no warning of this rule. *)
Theorem label_window code :
  appends check_accessibility_labels code
    (map (a11y_violation code)
       (filter (lacks_label code) (finditer button_open_pattern code)))
  /\ (forall m,
        lacks_label code m = true
        <-> stands_within (py "Image(") code (start m)
              (button_end_of code (start m) + 200)
            /\ ~ stands_within (py ".accessibilityLabel") code (start m)
                  (button_end_of code (start m) + 200))
  /\ (forall h,
        literals_accepted code ->
        exists r,
          fst (analyze_swift_code code h) = inr r
          /\ filter (rule_is (py "missing_accessibility_label")) (result_violations r)
             = map (a11y_violation code)
                 (filter (lacks_label code) (finditer button_open_pattern code)))
  /\ (contains (py "Image(") code = false ->
      appends check_accessibility_labels code [])
  /\ (contains (py "Image(") code = false -> a11y_violations code = []).
Proof.
  assert (forall sub m,
            sub <> [] ->
            contains sub (snippet_of code (start m)) = true
            <-> stands_within sub code (start m)
                  (button_end_of code (start m) + 200)) as Hwin.
  { intros sub m Hne. unfold snippet_of. rewrite (contains_slice _ _ _ _ Hne).
    unfold stands_within. split; intros [i [Hlo [Hhi Hs]]]; exists i;
      repeat split; try assumption; [lia|].
    pose proof (stands_at_inside _ _ _ Hne Hs). lia. }
  assert (contains (py "Image(") code = false -> a11y_violations code = [])
    as Hnone.
  { intros Hno. unfold a11y_violations.
    replace (filter (lacks_label code) (finditer button_open_pattern code))
      with (@nil pymatch); [reflexivity|].
    symmetry. induction (finditer button_open_pattern code) as [|m ms IH];
      [reflexivity|]. simpl. rewrite <- IH.
    destruct (lacks_label code m) eqn:Hl; [|reflexivity].
    exfalso. unfold lacks_label in Hl. apply andb_true_iff in Hl as [Hi _].
    apply Hwin in Hi as [i [_ [_ Hs]]]; [|discriminate].
    assert (contains (py "Image(") code = true) as Ht; [|congruence].
    apply contains_iff. exists i. exact Hs. }
  split; [apply check_a11y_appends|].
  split.
  - intros m. unfold lacks_label.
    rewrite andb_true_iff, negb_true_iff, (Hwin (py "Image(")) by discriminate.
    rewrite <- (Hwin (py ".accessibilityLabel") m) by discriminate.
    destruct (contains (py ".accessibilityLabel") (snippet_of code (start m)));
      intuition congruence.
  - split.
    { intros h Hacc. exists (make_result (all_violations code)).
      pose proof (analysis_returns code h Hacc) as Hr. split; [exact Hr|].
      now destruct (result_by_rule code h _ Hr) as (_ & _ & _ & _ & _ & _ & H7). }
    split; [|exact Hnone].
    intros Hno. rewrite <- (Hnone Hno). apply check_a11y_appends.
Qed.

(** ** Sized directives: fonts and frames *)

Lemma sized_pattern_matches opening code p ds :
  sized_directive_at opening code p ds ->
  exists m, match_here (sized_pattern opening) code p (skipn p code) = Some m.
Proof.
  intros [ws [rest [Hs [Hws [Hds Hne]]]]].
  apply (match_here_complete (sized_pattern opening) code p (skipn p code)
           {| m_pos := p + List.length opening + List.length ws
                       + List.length ds + List.length (py ")");
              m_rest := rest;
              m_g1 := Some (p + List.length opening + List.length ws,
                            p + List.length opening + List.length ws
                            + List.length ds) |}).
  unfold sized_pattern, init_state. rewrite Hs.
  eapply denote_seq; [apply denote_lit|].
  eapply denote_seq; [apply (denote_rep code CSpace); [exact Hws | lia]|].
  eapply denote_seq.
  - exists {| m_pos := p + List.length opening + List.length ws + List.length ds;
              m_rest := py ")" ++ rest; m_g1 := None |}.
    split; [apply (denote_rep code CDigit); [exact Hds | now apply nonempty_length]|].
    cbn [m_rest m_pos m_g1].
    instantiate (1 := {| m_pos := p + List.length opening + List.length ws
                                  + List.length ds;
                         m_rest := py ")" ++ rest;
                         m_g1 := Some (p + List.length opening + List.length ws,
                                       p + List.length opening + List.length ws
                                       + List.length ds) |}).
    repeat split.
  - apply denote_lit.
Qed.

(** A match of a self-avoiding sized pattern that starts before an offset
    where the directive stands ends before that offset. *)
Lemma sized_pattern_stops opening code p ds m' :
  self_avoiding opening ->
  sized_directive_at opening code p ds ->
  In m' (finditer (sized_pattern opening) code) ->
  start m' < p -> end_ m' <= p.
Proof.
  intros Hav [ws [rest [Hs _]]] Hin Hlt.
  apply finditer_sound in Hin as [_ Hm].
  apply sized_pattern_shape in Hm
    as [ws' [ds' [rest' [Hs' [Hws' [Hds' [_ [_ He]]]]]]]].
  destruct (Nat.le_gt_cases (end_ m') p) as [Hle|Hgt]; [exact Hle|exfalso].
  destruct opening as [|c0 [|c1 opening]]; try contradiction.
  destruct Hav as [Hsp [Hdg [Hpar Hre]]].
  set (op := c0 :: c1 :: opening) in *.
  set (T := op ++ ws' ++ ds' ++ py ")") in *.
  assert (skipn (start m') code = T ++ rest') as HT
    by (rewrite Hs'; unfold T; now rewrite <- !app_assoc).
  assert (forall i, i < List.length T ->
                    nth_error code (start m' + i) = nth_error T i) as Hnth
    by (intros i Hi; now apply nth_error_of_skipn with (t := rest')).
  assert (nth_error code p = Some c0 /\ nth_error code (S p) = Some c1) as [Hc0 Hc1].
  { split.
    - rewrite <- (Nat.add_0_r p), <- nth_error_skipn, Hs. reflexivity.
    - replace (S p) with (p + 1) by lia. rewrite <- nth_error_skipn, Hs. reflexivity. }
  remember (p - start m') as i eqn:Hi.
  assert (nth_error T i = Some c0) as Hi0.
  { rewrite <- Hnth by lia. now replace (start m' + i) with p by lia. }
  destruct (Nat.lt_ge_cases i (List.length op)) as [Hin | Hout].
  - unfold T in Hi0. rewrite nth_error_app1 in Hi0 by exact Hin.
    destruct (Hre i) as [Hlen Hne]; [lia | exact Hi0|].
    apply Hne. rewrite <- Hc1.
    replace (S p) with (start m' + S i) by lia.
    rewrite Hnth by (unfold T; rewrite length_app; lia).
    unfold T. now rewrite nth_error_app1.
  - unfold T in Hi0. rewrite nth_error_app2 in Hi0 by exact Hout.
    apply nth_error_In in Hi0.
    apply in_app_or in Hi0 as [H|H].
    + rewrite forallb_forall in Hws'. apply Hws' in H. simpl in H. congruence.
    + apply in_app_or in H as [H|H].
      * rewrite forallb_forall in Hds'. apply Hds' in H. simpl in H. congruence.
      * destruct H as [H|[]]. now apply Hpar.
Qed.

(** Every offset where the directive stands is the start of a match the
    scanner yields. *)
Lemma sized_pattern_found opening code p ds :
  self_avoiding opening ->
  sized_directive_at opening code p ds ->
  exists m, In m (finditer (sized_pattern opening) code) /\ start m = p.
Proof.
  intros Hav Hd. destruct (sized_pattern_matches _ _ _ _ Hd) as [m Hm].
  exists m. split; [|now apply match_here_start in Hm].
  apply finditer_complete with (p := p); [|exact Hm|].
  - destruct Hd as [ws [rest [Hs _]]].
    destruct (Nat.le_gt_cases p (List.length code)) as [H|H]; [exact H|].
    rewrite skipn_all2 in Hs by lia.
    destruct opening; [contradiction | discriminate].
  - intros m' Hin Hlt. now apply (sized_pattern_stops opening code p ds).
Qed.

Lemma sized_pattern_reads opening code m :
  In m (finditer (sized_pattern opening) code) ->
  exists ds, sized_directive_at opening code (start m) ds
             /\ group1 code m = Some ds.
Proof.
  intros Hin. apply finditer_sound in Hin as [_ Hm].
  apply sized_pattern_shape in Hm
    as [ws [ds [rest' [Hs [Hws [Hds [Hne [Hg _]]]]]]]].
  exists ds. split; [|exact Hg]. exists ws, rest'. auto.
Qed.


Lemma frame_openings_avoiding opening description :
  In (opening, description) frame_openings -> self_avoiding opening.
Proof.
  intros [H|[H|[]]]; injection H as <- _;
    unfold self_avoiding; cbn [py map list_ascii_of_string];
    repeat split; try reflexivity; try discriminate;
    do 15 (destruct i as [|i]; [simpl in *; try lia; try discriminate|]);
    simpl in *; try discriminate; try lia;
    destruct i; discriminate.
Qed.


(** X9.  The hardcoded_frame_size rule misses no single-argument directive.
    [check_hardcoded_frame_sizes] appends one warning per match of its two
    patterns and never raises.  For [width] and for [height], every offset
    where the text reads [.frame(width:] (or [.frame(height:]), blanks, an
    integer literal and a closing parenthesis is the start of a match, and
    the warning of a match names the dimension, embeds the literal as it is
    written and carries the line of the directive.  These warnings are the
    hardcoded_frame_size violations of the result, which is returned whenever
    [int] accepts every touch-target integer: the result then holds a warning
    for every such offset. *)
Theorem frame_rule_complete code opening description :
  In (opening, description) frame_openings ->
  In (sized_pattern opening, description) frame_patterns
  /\ (forall p ds,
        sized_directive_at opening code p ds ->
        exists m, In m (finditer (sized_pattern opening) code) /\ start m = p)
  /\ (forall m,
        In m (finditer (sized_pattern opening) code) ->
        exists ds,
          sized_directive_at opening code (start m) ds
          /\ frame_violation code description m
             = mk_violation (py "warning") (py "hardcoded_frame_size")
                 (description ++ py ": " ++ ds
                  ++ py "pt. Consider using minWidth/minHeight or semantic tokens.")
                 (Some (line_number code (start m))))
  /\ appends check_hardcoded_frame_sizes code (frame_violations code)
  /\ (forall m,
        In m (finditer (sized_pattern opening) code) ->
        In (frame_violation code description m) (frame_violations code))
  /\ (forall h,
        literals_accepted code ->
        exists r,
          fst (analyze_swift_code code h) = inr r
          /\ filter (rule_is (py "hardcoded_frame_size")) (result_violations r)
             = frame_violations code
          /\ forall p ds,
               sized_directive_at opening code p ds ->
               exists ds',
                 sized_directive_at opening code p ds'
                 /\ In (mk_violation (py "warning") (py "hardcoded_frame_size")
                          (description ++ py ": " ++ ds'
                           ++ py "pt. Consider using minWidth/minHeight or semantic tokens.")
                          (Some (line_number code p)))
                      (result_violations r)).
Proof.
  intros Hin.
  assert (In (sized_pattern opening, description) frame_patterns) as Hpat
    by (destruct Hin as [H|[H|[]]]; injection H as <- <-; simpl; auto).
  assert (forall p ds,
            sized_directive_at opening code p ds ->
            exists m, In m (finditer (sized_pattern opening) code) /\ start m = p)
    as Hfound.
  { intros p ds Hd.
    exact (sized_pattern_found opening code p ds
             (frame_openings_avoiding _ _ Hin) Hd). }
  assert (forall m,
            In m (finditer (sized_pattern opening) code) ->
            exists ds,
              sized_directive_at opening code (start m) ds
              /\ frame_violation code description m
                 = mk_violation (py "warning") (py "hardcoded_frame_size")
                     (description ++ py ": " ++ ds
                      ++ py "pt. Consider using minWidth/minHeight or semantic tokens.")
                     (Some (line_number code (start m)))) as Hreads.
  { intros m Hm. destruct (sized_pattern_reads opening code m Hm) as [ds [Hd Hg]].
    exists ds. split; [exact Hd|]. unfold frame_violation, frame_message.
    now rewrite Hg. }
  assert (forall m,
            In m (finditer (sized_pattern opening) code) ->
            In (frame_violation code description m) (frame_violations code))
    as Hmember.
  { intros m Hm. unfold frame_violations. apply in_flat_map.
    exists (sized_pattern opening, description). split; [exact Hpat|].
    cbn [fst snd]. now apply in_map. }
  split; [exact Hpat|]. split; [exact Hfound|]. split; [exact Hreads|].
  split; [apply check_frame_appends|]. split; [exact Hmember|].
  intros h Hacc. exists (make_result (all_violations code)).
  pose proof (analysis_returns code h Hacc) as Hr. split; [exact Hr|].
  destruct (result_by_rule code h _ Hr) as (H1 & _).
  split; [exact H1|].
  intros p ds Hd. destruct (Hfound p ds Hd) as [m [Hm Hst]].
  destruct (Hreads m Hm) as [ds' [Hd' Hv]]. rewrite Hst in Hd', Hv.
  exists ds'. split; [exact Hd'|].
  rewrite <- Hv.
  assert (In (frame_violation code description m)
            (filter (rule_is (py "hardcoded_frame_size"))
               (result_violations (make_result (all_violations code))))) as Hf
    by (rewrite H1; now apply Hmember).
  now apply filter_In in Hf.
Qed.

(** ** The command-line adapter *)

Lemma str_eqb_nil s : str_eqb s [] = true <-> s = [].
Proof. destruct s; simpl; split; congruence. Qed.

(** X10.  [main] exits with status 0 in two cases only, both on a request
    that is a JSON object: its [code] entry is missing or falsy, and the
    payload is the error [No Swift code provided for analysis.]; or the entry
    is a non-empty string every touch-target literal of which [int] accepts,
    and the payload is the result of the analysis.  It exits with status 1
    otherwise, and then the payload is an error whose message starts with
    [Invalid JSON input: ] or with [Analysis failed: ]; no payload printed
    with status 0 has such a message.  A request whose code is a non-empty
    string of at most 640 characters always gets its result with status 0. *)
Theorem main_exit_status io input_data :
  (snd (main io input_data) = 0 <->
   exists entries,
     json_loads io input_data = Loaded (JDict entries)
     /\ ((truthy (dict_get entries (py "code") (JStr [])) = false
          /\ fst (main io input_data)
             = ErrorPayload (py "No Swift code provided for analysis."))
         \/ (exists s,
               dict_get entries (py "code") (JStr []) = JStr s /\ s <> []
               /\ (forall m ds, In m (finditer touch_pattern s) ->
                                group1 s m = Some ds -> int_refuses ds = false)
               /\ fst (main io input_data)
                  = Success (make_result (all_violations s)))))
  /\ (snd (main io input_data) = 1 <->
      exists text,
        fst (main io input_data) = ErrorPayload (py "Invalid JSON input: " ++ text)
        \/ fst (main io input_data) = ErrorPayload (py "Analysis failed: " ++ text))
  /\ (snd (main io input_data) = 0 \/ snd (main io input_data) = 1)
  /\ (forall entries s,
        json_loads io input_data = Loaded (JDict entries) ->
        dict_get entries (py "code") (JStr []) = JStr s ->
        s <> [] -> List.length s <= 640 ->
        main io input_data = (Success (make_result (all_violations s)), 0)).
Proof.
  unfold main.
  destruct (json_loads io input_data) as [request|text|text] eqn:Hload.
  2,3: split; [split; [discriminate | intros [entries [H _]]; discriminate]|];
       split; [split; [intros _; exists text; cbn [fst]; auto | reflexivity]|];
       split; [now right | intros entries s H; discriminate].
  destruct request as [| b | z | fz | s0 | items | entries].
  1-6: split; [split; [discriminate | intros [entries [H _]]; discriminate]|];
       split; [split; [intros _; eexists; cbn [fst]; right; reflexivity
                      | reflexivity]|];
       split; [now right | intros entries s H; discriminate].
  cbv zeta.
  destruct (truthy (dict_get entries (py "code") (JStr []))) eqn:Htruthy;
    cbn [negb].
  - destruct (dict_get entries (py "code") (JStr [])) as [| b | z | fz | s | items | es]
      eqn:Hcode.
    1-4,6-7:
      split; [split; [discriminate
                     | intros [entries' [H [[Hf _]|[s' [Hs _]]]]];
                       injection H as <-;
                       [rewrite Hcode in Hf; congruence
                       | rewrite Hcode in Hs; discriminate]]|];
      split; [split; [intros _; eexists; cbn [fst]; right; reflexivity
                     | reflexivity]|];
      split; [now right
             | intros entries' s' H Hs; injection H as <-;
               rewrite Hcode in Hs; discriminate].
    assert (s <> []) as Hne.
    { intros ->. discriminate. }
    destruct (analysis_cases s []) as [[Hall ->]|[Hex ->]]; cbn [fst snd].
    + split.
      { split; [intros _|reflexivity]. exists entries. split; [reflexivity|].
        right. exists s. rewrite Hcode. auto. }
      split.
      { split; [discriminate | intros [text [H|H]]; discriminate]. }
      split; [now left|].
      intros entries' s' H Hs _ _. injection H as <-. rewrite Hcode in Hs.
      now injection Hs as <-.
    + split.
      { split; [discriminate|].
        intros [entries' [H [[Hf _]|[s' [Hs [_ [Hall _]]]]]]];
          injection H as <-; [rewrite Hcode in Hf; congruence|].
        rewrite Hcode in Hs. injection Hs as <-. destruct Hex as [m [ds [Hm [Hg Hr]]]].
        rewrite (Hall m ds Hm Hg) in Hr. discriminate. }
      split.
      { split; [intros _; eexists; right; reflexivity | reflexivity]. }
      split; [now right|].
      intros entries' s' H Hs _ Hlen. exfalso. injection H as <-.
      rewrite Hcode in Hs. injection Hs as <-.
      destruct Hex as [m [ds [Hm [Hg Hr]]]].
      destruct (touch_match_group s m Hm) as [ds' [Hg' [_ [_ Hle]]]].
      assert (ds' = ds) by congruence. subst ds'.
      unfold int_refuses in Hr.
      replace (640 <? List.length ds) with false in Hr
        by (symmetry; apply Nat.ltb_ge; lia).
      discriminate.
  - cbn [fst snd]. split.
    { split; [intros _|reflexivity]. exists entries. split; [reflexivity|].
      left. split; [exact Htruthy | reflexivity]. }
    split.
    { split; [discriminate|]. intros [text [H|H]]; discriminate. }
    split; [now left|].
    intros entries' s H Hs Hne _. exfalso. injection H as <-.
    rewrite Hs in Htruthy. cbn [truthy] in Htruthy.
    apply negb_false_iff, str_eqb_nil in Htruthy. contradiction.
Qed.

End Analyzer.

(** * Concrete runs *)

Lemma no_closing_unbalanced code start_ :
  existsb (fun c => (c =? chr "}")%N) code = false -> unbalanced code start_.
Proof.
  intros H k _ [Hn _]. apply nth_error_In in Hn.
  assert (existsb (fun c => (c =? chr "}")%N) code = true) as Ht.
  { apply existsb_exists. exists (chr "}"). split; [exact Hn | reflexivity]. }
  congruence.
Qed.

(** C1 on a text with one violation of each severity. *)
Lemma summary_invariant_witness :
  exists r,
    fst (analyze_swift_code cpython_default (py "x! Color(red: 1") []) = inr r
    /\ summary r = {| total := 2; errors := 1; warnings := 1 |}
    /\ total (summary r) = List.length (result_violations r)
    /\ errors (summary r) + warnings (summary r) = total (summary r)
    /\ Forall severity_ok (result_violations r).
Proof.
  eexists. split; [vm_compute; reflexivity|]. split; [reflexivity|].
  apply (summary_invariant cpython_default (py "x! Color(red: 1") []).
  vm_compute. reflexivity.
Defined.

(** C8: a height directive on line 1 and a width directive on line 2 are
    reported width first. *)
Lemma violations_order_counterexample :
  let code := py ".frame(height: 5)" ++ [newline] ++ py ".frame(width: 6)" in
  (exists r,
     fst (analyze_swift_code cpython_default code []) = inr r
     /\ map (fun v => (rule v, line v)) (result_violations r)
        = [ (py "hardcoded_frame_size", Some 2);
            (py "hardcoded_frame_size", Some 1) ])
  /\ rule_offsets cpython_default code (py "hardcoded_frame_size")
     = [Some 18; Some 0]
  /\ ~ ascending (rule_offsets cpython_default code (py "hardcoded_frame_size")).
Proof.
  intros code. split; [|split].
  - eexists. split; vm_compute; reflexivity.
  - vm_compute. reflexivity.
  - assert (rule_offsets cpython_default code (py "hardcoded_frame_size")
            = [Some 18; Some 0]) as -> by (vm_compute; reflexivity).
    intros H. apply StronglySorted_inv in H as [_ H]. apply Forall_inv in H.
    simpl in H. lia.
Qed.

Lemma violations_order_witness :
  exists r,
    fst (analyze_swift_code cpython_default
           (py ".frame(height: 5)" ++ [newline] ++ py ".frame(width: 6)") []) = inr r
    /\ result_violations r
       = flat_map (fun seg => map snd (snd seg))
           (segments cpython_default
              (py ".frame(height: 5)" ++ [newline] ++ py ".frame(width: 6)")).
Proof.
  eexists. split; [vm_compute; reflexivity|].
  apply (violations_order cpython_default
           (py ".frame(height: 5)" ++ [newline] ++ py ".frame(width: 6)") []).
  vm_compute. reflexivity.
Defined.

(** C5: an opening brace that is never closed, with an image 250 characters
    further on.  The span stays empty, the snippet stops after 200 characters
    and the image goes unseen. *)
Lemma unbalanced_span_counterexample :
  unbalanced unclosed_button 0
  /\ has_open unclosed_button = true
  /\ button_end_of unclosed_button 0 = 0
  /\ List.length (snippet_of unclosed_button 0) = 200
  /\ snippet_of unclosed_button 0 <> skipn 0 unclosed_button
  /\ contains (py "Image(") (skipn 0 unclosed_button) = true
  /\ a11y_violations cpython_default unclosed_button = [].
Proof.
  split; [apply no_closing_unbalanced; vm_compute; reflexivity|].
  repeat split; try (vm_compute; reflexivity).
  intros H. apply (f_equal (@List.length char)) in H. vm_compute in H. discriminate.
Qed.

Lemma unbalanced_span_witness :
  unbalanced unclosed_button 0
  /\ button_end_of unclosed_button 0 = 0
  /\ snippet_of unclosed_button 0 = firstn 200 (skipn 0 unclosed_button).
Proof.
  assert (unbalanced unclosed_button 0) as Hu
    by (apply no_closing_unbalanced; vm_compute; reflexivity).
  split; [exact Hu|]. exact (proj2 (unbalanced_span unclosed_button 0 Hu)).
Defined.

(** C2: under the default conversion limit of 4300 digits, a frame width of
    4301 digits after a control makes [int] and with it the analysis raise
    ValueError. *)
Lemma analyze_outcome_counterexample :
  List.length long_literal = 4325
  /\ fst (analyze_swift_code cpython_default long_literal []) = inl ValueError
  /\ ~ exists r, fst (analyze_swift_code cpython_default long_literal []) = inr r.
Proof.
  assert (fst (analyze_swift_code cpython_default long_literal []) = inl ValueError)
    as H by (vm_compute; reflexivity).
  split; [vm_compute; reflexivity|]. split; [exact H|].
  intros [r Hr]. congruence.
Qed.



Lemma analyze_outcome_witness :
  List.length (py "Button(a) { b }.frame(width: 30)") <= 640
  /\ fst (analyze_swift_code cpython_default (py "Button(a) { b }.frame(width: 30)") [])
     = inr (make_result
              (all_violations cpython_default (py "Button(a) { b }.frame(width: 30)"))).
Proof.
  assert (List.length (py "Button(a) { b }.frame(width: 30)") <= 640) as H
    by (apply Nat.leb_le; vm_compute; reflexivity).
  split; [exact H|].
  exact (proj1 (proj2 (proj2 (proj2
           (analyze_outcome cpython_default (py "Button(a) { b }.frame(width: 30)") []))))
           H).
Defined.




(** X1 on an instance for [x!]: the second call returns the forced unwrap
    twice. *)
Lemma analyze_twice_on_instance_witness :
  exists vs self',
    analyze cpython_default (new_analyzer (py "x!")) = (inr vs, self')
    /\ List.length vs = 1
    /\ fst (analyze cpython_default self')
       = inr (vs ++ all_violations cpython_default (py "x!")).
Proof.
  eexists. eexists. split; [vm_compute; reflexivity|].
  split; [reflexivity|].
  refine (proj2 (proj2 (proj2
            (analyze_twice_on_instance cpython_default (new_analyzer (py "x!"))
               _ _ _)))).
  vm_compute. reflexivity.
Defined.

(** X2 on a text that holds no trigger. *)
Lemma no_trigger_no_violation_witness :
  (forall r, In r trigger_patterns -> ~ occurs cpython_default r (py "let x = 1"))
  /\ fst (analyze_swift_code cpython_default (py "let x = 1") [])
     = inr {| status := py "success"; result_violations := [];
              summary := {| total := 0; errors := 0; warnings := 0 |} |}.
Proof.
  assert (forall r, In r trigger_patterns
                    -> ~ occurs cpython_default r (py "let x = 1")) as H.
  { intros r Hin Hocc. apply search_occurs in Hocc.
    unfold trigger_patterns in Hin. cbn [map fst frame_patterns color_patterns app In] in Hin.
    repeat (destruct Hin as [<-|Hin]; [vm_compute in Hocc; discriminate|]).
    exact Hin. }
  split; [exact H|].
  exact (no_trigger_no_violation cpython_default (py "let x = 1") [] H).
Defined.

(** X3 on a text of two lines with a forced unwrap on each. *)
Lemma result_lines_witness :
  exists r,
    fst (analyze_swift_code cpython_default (py "a!" ++ [newline] ++ py "b!") [])
    = inr r
    /\ map line (result_violations r) = [Some 1; Some 2]
    /\ Forall (line_ok (py "a!" ++ [newline] ++ py "b!")) (result_violations r).
Proof.
  eexists. split; [vm_compute; reflexivity|]. split; [reflexivity|].
  apply (result_lines cpython_default (py "a!" ++ [newline] ++ py "b!") []).
  vm_compute. reflexivity.
Defined.

(** X4 on a text of two lines with a forced unwrap on each. *)
Lemma segment_lines_witness :
  exists r,
    fst (analyze_swift_code cpython_default (py "c!" ++ [newline] ++ py "d!") [])
    = inr r
    /\ Forall (fun seg => StronglySorted line_le
                            (map (fun t : report => line (snd t)) (snd seg)))
         (segments cpython_default (py "c!" ++ [newline] ++ py "d!")).
Proof.
  eexists. split; [vm_compute; reflexivity|].
  refine (proj2 (segment_lines cpython_default
                   (py "c!" ++ [newline] ++ py "d!") [] _ _)).
  vm_compute. reflexivity.
Defined.

(** X5 on a text with one error and one warning. *)
Lemma summary_by_rule_witness :
  exists r,
    fst (analyze_swift_code cpython_default (py "y! Color(red: 1") []) = inr r
    /\ errors (summary r)
       = count_rule (py "force_unwrapping") (result_violations r)
         + count_rule (py "touch_target_too_small") (result_violations r).
Proof.
  eexists. split; [vm_compute; reflexivity|].
  refine (proj1 (summary_by_rule cpython_default (py "y! Color(red: 1") [] _ _)).
  vm_compute. reflexivity.
Defined.

(** X6 on [image_button]: the brace at offset 21 is the first one that
    closes, and the method appends its warning. *)
Lemma first_closing_brace_witness :
  closes_at image_button 0 21
  /\ (exists n,
        n <= List.length image_button - 0
        /\ brace_loop image_button (seq 0 (List.length image_button - 0)) 0%Z
             false 0 0
           = inr (21, n))
  /\ check_accessibility_labels cpython_default (new_analyzer image_button)
     = (inr tt,
        extend (new_analyzer image_button)
          (map (a11y_violation image_button)
             (filter (lacks_label image_button)
                (finditer cpython_default button_open_pattern image_button)))).
Proof.
  assert (closes_at image_button 0 21) as Hc by (repeat split).
  assert (forall j, 0 <= j -> j < 21 -> ~ closes_at image_button 0 j) as Hmin.
  { intros j _ Hj [Hn _].
    do 21 (destruct j as [|j]; [discriminate|]). lia. }
  destruct (first_closing_brace cpython_default image_button 0 21
              (Nat.le_0_l 21) Hc Hmin) as (Hloop & _ & _ & Happ & _).
  split; [exact Hc|]. split; [exact Hloop|].
  exact (Happ (new_analyzer image_button) eq_refl).
Defined.

(** X7 at the edge of the window: the closing brace is at offset 9, so an
    image that ends at offset 209 is seen and one that ends at offset 210 is
    not. *)
Lemma label_window_witness :
  literals_accepted cpython_default (image_at_edge 193)
  /\ (exists r,
        fst (analyze_swift_code cpython_default (image_at_edge 193) []) = inr r
        /\ filter (rule_is (py "missing_accessibility_label")) (result_violations r)
           = map (a11y_violation (image_at_edge 193))
               (filter (lacks_label (image_at_edge 193))
                  (finditer cpython_default button_open_pattern
                     (image_at_edge 193))))
  /\ List.length (a11y_violations cpython_default (image_at_edge 193)) = 1
  /\ a11y_violations cpython_default (image_at_edge 194) = [].
Proof.
  assert (literals_accepted cpython_default (image_at_edge 193)) as Hacc.
  { apply short_text_accepted. apply Nat.leb_le. vm_compute. reflexivity. }
  split; [exact Hacc|].
  split.
  { exact (proj1 (proj2 (proj2
             (label_window cpython_default (image_at_edge 193)))) [] Hacc). }
  split; vm_compute; reflexivity.
Defined.


(** X9 for the width directive at offset 0 of [.frame(width: 30)]. *)
Lemma frame_rule_complete_witness :
  In (py ".frame(width:", py "Hardcoded frame width") frame_openings
  /\ sized_directive_at cpython_default (py ".frame(width:")
       (py ".frame(width: 30)") 0 (py "30")
  /\ literals_accepted cpython_default (py ".frame(width: 30)")
  /\ exists r,
       fst (analyze_swift_code cpython_default (py ".frame(width: 30)") []) = inr r
       /\ filter (rule_is (py "hardcoded_frame_size")) (result_violations r)
          = frame_violations cpython_default (py ".frame(width: 30)")
       /\ exists ds',
            sized_directive_at cpython_default (py ".frame(width:")
              (py ".frame(width: 30)") 0 ds'
            /\ In (mk_violation (py "warning") (py "hardcoded_frame_size")
                     (py "Hardcoded frame width" ++ py ": " ++ ds'
                      ++ py "pt. Consider using minWidth/minHeight or semantic tokens.")
                     (Some (line_number (py ".frame(width: 30)") 0)))
                 (result_violations r).
Proof.
  assert (In (py ".frame(width:", py "Hardcoded frame width") frame_openings)
    as H by (left; reflexivity).
  assert (sized_directive_at cpython_default (py ".frame(width:")
            (py ".frame(width: 30)") 0 (py "30")) as Hd.
  { exists (py " "), []. split; [reflexivity|]. split; [reflexivity|].
    split; [reflexivity | discriminate]. }
  assert (literals_accepted cpython_default (py ".frame(width: 30)")) as Hacc.
  { apply short_text_accepted. apply Nat.leb_le. reflexivity. }
  split; [exact H|]. split; [exact Hd|]. split; [exact Hacc|].
  destruct (frame_rule_complete cpython_default (py ".frame(width: 30)") _ _ H)
    as (_ & _ & _ & _ & _ & Hres).
  destruct (Hres [] Hacc) as [r [Hr [Hf Hall]]].
  exists r. split; [exact Hr|]. split; [exact Hf|].
  exact (Hall 0 (py "30") Hd).
Defined.

(** X10 on [sample_request]: the request is an object whose code is a short
    string, and [main] prints the result with status 0. *)
Lemma main_exit_status_witness :
  json_loads sample_json sample_request
  = Loaded (JDict [(py "code", JStr (py "x!"))])
  /\ main cpython_default sample_json sample_request
     = (Success (make_result (all_violations cpython_default (py "x!"))), 0).
Proof.
  assert (json_loads sample_json sample_request
          = Loaded (JDict [(py "code", JStr (py "x!"))])) as H
    by (vm_compute; reflexivity).
  split; [exact H|].
  refine (proj2 (proj2 (proj2
            (main_exit_status cpython_default sample_json sample_request)))
            _ (py "x!") H _ _ _).
  - reflexivity.
  - discriminate.
  - apply Nat.leb_le. reflexivity.
Defined.


